(** * DS1921L thermochron over a bit-banged 1-wire line

    A shallow embedding of [ibutton.cc]: the bit and byte transceiver, the
    DS1921L command sequences built on it, and the two small codecs
    (temperature decode, BCD clock payload).

    The program talks to the outside world only through four calls of the
    bcm2835 library (pin direction, drive level, sample level, busy-wait
    delay), [printf] and [localtime].  Each function of the source becomes a
    computation in a small monad that threads the position in the stream of
    sampled line levels and appends the calls it makes to a trace. *)

From Stdlib Require Import ZArith List Bool Lia String QArith.
From Stdlib Require Import SpecFloat.
Import ListNotations.

Local Open Scope Z_scope.

(** ** Line I/O: events, the sampled line, the monad *)

(** [BCM2835_GPIO_FSEL_INPT] and [BCM2835_GPIO_FSEL_OUTP]. *)
Inductive fsel_mode : Type :=
| BCM2835_GPIO_FSEL_INPT
| BCM2835_GPIO_FSEL_OUTP.

(** The levels of bcm2835.h. *)
Definition LOW : Z := 0.
Definition HIGH : Z := 1.

(** What the program does, in order.  The first six constructors are calls
    that leave the process; the last two are markers that record the return
    of [verifyScratch] and the entry of [commitScratch], so that properties
    about which calls happened can be stated on the trace. *)
Inductive event : Type :=
| Fsel (pin : Z) (mode : fsel_mode)
| GpioWrite (pin : Z) (level : Z)
| DelayUs (us : Z)
| GpioLev (pin : Z) (level : Z)
| Printf (s : string)
| Localtime
| RetVerify (pin address length : Z) (result : bool)
| CallCommit (pin address length : Z).

(** The line as the program sees it: the value of the k-th call of
    [bcm2835_gpio_lev].  A real line answers 0 or 1. *)
Definition line : Type := nat -> Z.

Definition binary_line (o : line) : Prop := forall k, o k = 0 \/ o k = 1.

Definition M (A : Type) : Type := line -> nat -> A * nat * list event.

Definition val {A} (r : A * nat * list event) : A := fst (fst r).
Definition nxt {A} (r : A * nat * list event) : nat := snd (fst r).
Definition tr {A} (r : A * nat * list event) : list event := snd r.

Definition ret {A} (a : A) : M A := fun _ k => (a, k, []).

Definition bind {A B} (m : M A) (f : A -> M B) : M B :=
  fun o k =>
    let r1 := m o k in
    let r2 := f (val r1) o (nxt r1) in
    (val r2, nxt r2, tr r1 ++ tr r2).

Notation "x <- m ;; f" := (bind m (fun x => f))
  (at level 61, m at next level, right associativity).
Notation "m ;; f" := (bind m (fun _ => f))
  (at level 61, right associativity).

Definition emit (e : event) : M unit := fun _ k => (tt, k, [e]).

Definition bcm2835_gpio_fsel (pin : Z) (mode : fsel_mode) : M unit :=
  emit (Fsel pin mode).
Definition bcm2835_gpio_write (pin level : Z) : M unit :=
  emit (GpioWrite pin level).
Definition bcm2835_delayMicroseconds (us : Z) : M unit :=
  emit (DelayUs us).
(** The result type of [bcm2835_gpio_lev] is [uint8_t]. *)
Definition bcm2835_gpio_lev (pin : Z) : M Z :=
  fun o k => let v := o k mod 256 in (v, S k, [GpioLev pin v]).
Definition printf (s : string) : M unit := emit (Printf s).

(** ** Protocol constants *)

Definition READROM : Z := 0x33.
Definition MATCHROM : Z := 0x55.
Definition SEARCHROM : Z := 0xF0.
Definition SKIPROM : Z := 0xCC.
Definition CONDITIONALSEARCH : Z := 0xEC.

Definition WRITESCRATCH : Z := 0x0F.
Definition READSCRATCH : Z := 0xAA.
Definition COPYSCRATCH : Z := 0x55.
Definition READMEM : Z := 0xF0.
Definition READMEMCRC : Z := 0xA5.
Definition CLEARMEM : Z := 0x3C.
Definition CONVERTTEMP : Z := 0x44.

Definition TEMPADDR : Z := 0x0211.
Definition RTCSECONDS : Z := 0x0200.
Definition CONTROLREG : Z := 0x020E.
Definition MISDELAY : Z := 0x0212.

Definition ENABLECLR : Z := 0x40.

(** ** Bit-level transceiver *)

(** The two delays chosen by [writeBit]: low phase, then high phase. *)
Definition writeBit_delays (b : Z) : Z * Z :=
  if b =? 1 then (10, 55) else (65, 5).

Definition writeBit (pin b : Z) : M unit :=
  let delay1 := fst (writeBit_delays b) in
  let delay2 := snd (writeBit_delays b) in
  bcm2835_gpio_fsel pin BCM2835_GPIO_FSEL_OUTP ;;
  bcm2835_gpio_write pin LOW ;;
  bcm2835_delayMicroseconds delay1 ;;
  bcm2835_gpio_write pin HIGH ;;
  bcm2835_delayMicroseconds delay2 ;;
  bcm2835_gpio_fsel pin BCM2835_GPIO_FSEL_INPT.

(** [for(i = 0; i < 8; i++)] with [n] iterations left. *)
Fixpoint writeByte_loop (n : nat) (pin byte : Z) : M unit :=
  match n with
  | O => ret tt
  | S n' =>
      (if negb (Z.land byte 1 =? 0) then writeBit pin 1 else writeBit pin 0) ;;
      writeByte_loop n' pin (Z.shiftr byte 1)
  end.

Definition writeByte (pin byte : Z) : M unit := writeByte_loop 8 pin byte.

Definition readBit (pin : Z) : M Z :=
  bcm2835_gpio_fsel pin BCM2835_GPIO_FSEL_OUTP ;;
  bcm2835_gpio_write pin LOW ;;
  bcm2835_delayMicroseconds 5 ;;
  bcm2835_gpio_fsel pin BCM2835_GPIO_FSEL_INPT ;;
  bcm2835_delayMicroseconds 10 ;;
  b <- bcm2835_gpio_lev pin ;;
  bcm2835_delayMicroseconds 53 ;;
  ret b.

(** [n] iterations left, loop counter [i], accumulator [byte]. *)
Fixpoint readByte_loop (n : nat) (pin i byte : Z) : M Z :=
  match n with
  | O => ret byte
  | S n' =>
      b <- readBit pin ;;
      readByte_loop n' pin (i + 1) (Z.lor byte (Z.shiftl b i))
  end.

Definition readByte (pin : Z) : M Z := readByte_loop 8 pin 0 0.

Definition reset (pin : Z) : M Z :=
  bcm2835_gpio_fsel pin BCM2835_GPIO_FSEL_OUTP ;;
  bcm2835_gpio_write pin LOW ;;
  bcm2835_delayMicroseconds 480 ;;
  bcm2835_gpio_fsel pin BCM2835_GPIO_FSEL_INPT ;;
  bcm2835_delayMicroseconds 70 ;;
  b <- bcm2835_gpio_lev pin ;;
  bcm2835_delayMicroseconds 410 ;;
  ret b.

(** ** DS1921L functions *)

Definition writeAddr (pin address : Z) : M unit :=
  let byte1 := Z.land (Z.shiftr address 8) 0xFF in
  let byte2 := Z.land address 0xFF in
  writeByte pin byte2 ;;
  writeByte pin byte1.

(** ** Machine arithmetic *)

(** Conversion to [uint8_t] and to [uint16_t]. *)
Definition u8 (z : Z) : Z := z mod 256.
Definition u16 (z : Z) : Z := z mod 65536.

(** [float] and [double] are IEEE 754 binary32 and binary64, modelled with
    the specification floats of the standard library; the default rounding
    (to nearest, ties to even) is the one [SFdiv], [SFsub] and
    [binary_round] implement. *)
Definition double_of_int (z : Z) : spec_float := binary_normalize 53 1024 z 0 false.
Definition double_div : spec_float -> spec_float -> spec_float := SFdiv 53 1024.
Definition double_sub : spec_float -> spec_float -> spec_float := SFsub 53 1024.
Definition float_of_int (z : Z) : spec_float := binary_normalize 24 128 z 0 false.
Definition float_of_double (x : spec_float) : spec_float :=
  match x with
  | S754_finite s m e => binary_round 24 128 s m e
  | _ => x
  end.

(** The rational a floating-point datum stands for (0 for the values that
    are not finite; [is_finite] tells them apart). *)
Definition SF2Q (x : spec_float) : Q :=
  match x with
  | S754_finite s m e =>
      (inject_Z (if s then Z.neg m else Z.pos m) * Qpower (2 # 1) e)%Q
  | _ => 0%Q
  end.

Definition is_finite (x : spec_float) : bool :=
  match x with
  | S754_finite _ _ _ | S754_zero _ => true
  | _ => false
  end.

(** ** Temperature *)

(** [readByte(pin) / 2.0 - 40.0], computed in [double] and stored in the
    [float] variable [temperature]. *)
Definition temperature_of_raw (raw : Z) : spec_float :=
  float_of_double
    (double_sub (double_div (double_of_int raw) (double_of_int 2))
                (double_of_int 40)).

Definition oneShotConvert (pin : Z) : M spec_float :=
  check <- reset pin ;;
  if check =? HIGH then ret (float_of_int (-100)) else
  writeByte pin SKIPROM ;;
  writeByte pin CONVERTTEMP ;;
  bcm2835_delayMicroseconds 200 ;;
  check <- reset pin ;;
  if check =? HIGH then ret (float_of_int (-100)) else
  writeByte pin SKIPROM ;;
  writeByte pin READMEM ;;
  writeAddr pin TEMPADDR ;;
  raw <- readByte pin ;;
  ret (temperature_of_raw raw).

Definition BCDSeconds (time : Z) : Z := u8 (Z.rem time 60).

(** ** Scratchpad verification and commit *)

Definition verifyScratch (pin address length : Z) : M bool :=
  reset pin ;;
  writeByte pin SKIPROM ;;
  writeByte pin READSCRATCH ;;
  b0 <- readByte pin ;;
  let returnaddress := u16 b0 in
  b1 <- readByte pin ;;
  let returnaddress := u16 (Z.lor returnaddress (Z.shiftl (u16 b1) 8)) in
  b2 <- readByte pin ;;
  let returnlen := u8 b2 in
  let endoffset := u8 (Z.land address 0x1F) in
  let endoffset := u8 (endoffset + (length - 1)) in
  let result := (returnaddress =? address) && (returnlen =? endoffset) in
  emit (RetVerify pin address length result) ;;
  ret result.

Definition commitScratch (pin address length : Z) : M unit :=
  emit (CallCommit pin address length) ;;
  let endoffset := u8 (Z.land address 0x1F) in
  let endoffset := u8 (endoffset + (length - 1)) in
  reset pin ;;
  writeByte pin SKIPROM ;;
  writeByte pin COPYSCRATCH ;;
  writeAddr pin address ;;
  writeByte pin endoffset ;;
  bcm2835_delayMicroseconds 100.

(** ** Real-time clock *)

(** [struct tm], as [localtime] fills it. *)
Record tm : Type := mk_tm {
  tm_sec : Z;
  tm_min : Z;
  tm_hour : Z;
  tm_mday : Z;
  tm_mon : Z;
  tm_year : Z;
  tm_wday : Z;
  tm_yday : Z;
  tm_isdst : Z
}.

(** The three statements [lowbyte = (v % 10) & 0x0F; highbyte = (v / 10) &
    0x0F; bcdbyte = (highbyte << 4) | lowbyte;] that [setRTC] repeats; C's
    [/] and [%] truncate towards zero. *)
Definition bcd (v : Z) : Z :=
  let lowbyte := u8 (Z.land (Z.rem v 10) 0x0F) in
  let highbyte := u8 (Z.land (Z.quot v 10) 0x0F) in
  u8 (Z.lor (Z.shiftl highbyte 4) lowbyte).

Definition bcd_hour (hour : Z) : Z :=
  let lowbyte := u8 (Z.land (Z.rem hour 10) 0x0F) in
  let highbyte :=
    u8 (Z.lor (Z.lor (u8 (Z.b2z (10 <? hour)))
                     (Z.shiftl (u8 (Z.b2z (20 <? hour))) 1))
              (Z.shiftl 1 2)) in
  u8 (Z.lor (Z.shiftl highbyte 4) lowbyte).

Definition bcd_month (mon : Z) : Z :=
  let lowbyte := u8 (Z.land (Z.rem (mon + 1) 10) 0x0F) in
  let highbyte := u8 (Z.land (Z.quot (mon + 1) 10) 0x0F) in
  u8 (Z.lor (Z.lor (Z.shiftl 1 7) (Z.shiftl highbyte 4)) lowbyte).

(** The line feed that ends the second message of [setRTC]. *)
Definition newline : string :=
  String (Ascii.ascii_of_nat 10) EmptyString.

(** [timestruct] is what [localtime] returned for the current time. *)
Definition setRTC (pin : Z) (timestruct : tm) : M unit :=
  check <- reset pin ;;
  if check =? HIGH then printf "Error setting RTC." else
  writeByte pin SKIPROM ;;
  writeByte pin WRITESCRATCH ;;
  writeAddr pin RTCSECONDS ;;
  emit Localtime ;;
  writeByte pin (bcd (tm_sec timestruct)) ;;
  writeByte pin (bcd (tm_min timestruct)) ;;
  writeByte pin (bcd_hour (tm_hour timestruct)) ;;
  writeByte pin (u8 (tm_wday timestruct + 1)) ;;
  writeByte pin (bcd_month (tm_mon timestruct)) ;;
  writeByte pin (bcd (tm_year timestruct - 100)) ;;
  ok <- verifyScratch pin RTCSECONDS 7 ;;
  if ok then commitScratch pin RTCSECONDS 7
  else printf (String.append "Failed to set RTC" newline).

Definition clearMem (pin : Z) : M unit :=
  reset pin ;;
  writeByte pin SKIPROM ;;
  writeByte pin WRITESCRATCH ;;
  writeAddr pin CONTROLREG ;;
  writeByte pin ENABLECLR ;;
  ok <- verifyScratch pin CONTROLREG 1 ;;
  (if ok then commitScratch pin CONTROLREG 1 else ret tt) ;;
  reset pin ;;
  writeByte pin SKIPROM ;;
  writeByte pin CLEARMEM ;;
  reset pin ;;
  ret tt.

Definition missionStart (pin delay creg : Z) : M unit :=
  reset pin ;;
  writeByte pin SKIPROM ;;
  writeByte pin WRITESCRATCH ;;
  writeAddr pin CONTROLREG ;;
  writeByte pin creg ;;
  writeByte pin 0x00 ;;
  writeByte pin 0x00 ;;
  writeByte pin 0x00 ;;
  writeAddr pin delay ;;
  ok <- verifyScratch pin CONTROLREG 6 ;;
  (if ok then commitScratch pin CONTROLREG 6 else ret tt) ;;
  reset pin ;;
  ret tt.

(** ** Observing a trace *)

Definition is_line_write (e : event) : bool :=
  match e with GpioWrite _ _ => true | _ => false end.

(** Number of calls of [bcm2835_gpio_write]. *)
Definition line_writes (t : list event) : nat :=
  List.length (filter is_line_write t).

Definition is_marker (e : event) : bool :=
  match e with
  | RetVerify _ _ _ _ | CallCommit _ _ _ => true
  | _ => false
  end.

(** The calls of [verifyScratch] and [commitScratch], in order. *)
Definition markers (t : list event) : list event := filter is_marker t.

Definition is_commit (e : event) : bool :=
  match e with CallCommit _ _ _ => true | _ => false end.

(** Number of calls of [commitScratch]. *)
Definition commits (t : list event) : nat := List.length (filter is_commit t).

(** A 1-wire slave decodes a write slot by sampling the line 15 us after
    the falling edge: a line released before that reads as 1.  [peer_bits]
    is the bit sequence such a peer receives from a trace. *)
Fixpoint peer_bits (t : list event) : list Z :=
  match t with
  | [] => []
  | GpioWrite _ l1 :: ((DelayUs d1 :: GpioWrite _ l2 :: _) as rest) =>
      if (l1 =? LOW) && (l2 =? HIGH)
      then (if d1 <? 15 then 1 else 0) :: peer_bits rest
      else peer_bits rest
  | _ :: rest => peer_bits rest
  end.

(** The received bits, eight at a time, first bit least significant. *)
Fixpoint peer_bytes (bits : list Z) : list Z :=
  match bits with
  | b0 :: b1 :: b2 :: b3 :: b4 :: b5 :: b6 :: b7 :: rest =>
      (b0 + 2 * b1 + 4 * b2 + 8 * b3 + 16 * b4 + 32 * b5 + 64 * b6 + 128 * b7)
        :: peer_bytes rest
  | _ => []
  end.

(** The bytes a peer receives from a trace. *)
Definition sent_bytes (t : list event) : list Z := peer_bytes (peer_bits t).

(** A peer that answers the read slots with the given bits, in order, and
    with 0 once they are used up. *)
Definition replay (bits : list Z) : line := fun k => nth k bits 0.

(** Bit [i] of [v] for [i] from 0 to [n - 1]: least significant first. *)
Definition lsb_first (n : nat) (v : Z) : list Z :=
  map (fun i => Z.b2z (Z.testbit v (Z.of_nat i))) (seq 0 n).

(** ** Closed forms of the traces *)

Definition write_slot (pin b : Z) : list event :=
  [ Fsel pin BCM2835_GPIO_FSEL_OUTP;
    GpioWrite pin LOW;
    DelayUs (fst (writeBit_delays b));
    GpioWrite pin HIGH;
    DelayUs (snd (writeBit_delays b));
    Fsel pin BCM2835_GPIO_FSEL_INPT ].

Fixpoint write_slots (n : nat) (pin byte : Z) : list event :=
  match n with
  | O => []
  | S n' =>
      write_slot pin (if negb (Z.land byte 1 =? 0) then 1 else 0)
        ++ write_slots n' pin (Z.shiftr byte 1)
  end.

Definition wire_byte (pin byte : Z) : list event := write_slots 8 pin byte.

Definition wire_addr (pin address : Z) : list event :=
  wire_byte pin (Z.land address 0xFF)
    ++ wire_byte pin (Z.land (Z.shiftr address 8) 0xFF).

Definition read_slot (pin b : Z) : list event :=
  [ Fsel pin BCM2835_GPIO_FSEL_OUTP;
    GpioWrite pin LOW;
    DelayUs 5;
    Fsel pin BCM2835_GPIO_FSEL_INPT;
    DelayUs 10;
    GpioLev pin b;
    DelayUs 53 ].

Fixpoint read_slots (n : nat) (pin : Z) (o : line) (k : nat) : list event :=
  match n with
  | O => []
  | S n' => read_slot pin (u8 (o k)) ++ read_slots n' pin o (S k)
  end.

(** The value [readByte_loop] accumulates from the samples [k], [k+1], ... *)
Fixpoint read_acc (n : nat) (i byte : Z) (o : line) (k : nat) : Z :=
  match n with
  | O => byte
  | S n' => read_acc n' (i + 1) (Z.lor byte (Z.shiftl (u8 (o k)) i)) o (S k)
  end.

(** The byte [readByte] returns when its first sample is number [k]. *)
Definition read_value (o : line) (k : nat) : Z := read_acc 8 0 0 o k.

Definition reset_trace (pin b : Z) : list event :=
  [ Fsel pin BCM2835_GPIO_FSEL_OUTP;
    GpioWrite pin LOW;
    DelayUs 480;
    Fsel pin BCM2835_GPIO_FSEL_INPT;
    DelayUs 70;
    GpioLev pin b;
    DelayUs 410 ].

(** What [verifyScratch] reads back when its reset takes sample [k]: the
    16-bit address, low byte first, and the end-offset byte. *)
Definition readback_address (o : line) (k : nat) : Z :=
  read_value o (k + 1) + 256 * read_value o (k + 9).
Definition readback_offset (o : line) (k : nat) : Z :=
  read_value o (k + 17).

(** The result of [verifyScratch], from the samples. *)
Definition verify_value (address length : Z) (o : line) (k : nat) : bool :=
  (u16 (Z.lor (u16 (read_value o (k + 1)))
              (Z.shiftl (u16 (read_value o (k + 9))) 8)) =? address)
  && (u8 (read_value o (k + 17))
      =? u8 (u8 (Z.land address 0x1F) + (length - 1))).

Definition verify_trace (pin : Z) (o : line) (k : nat) : list event :=
  reset_trace pin (u8 (o k))
    ++ wire_byte pin SKIPROM
    ++ wire_byte pin READSCRATCH
    ++ read_slots 8 pin o (k + 1)
    ++ read_slots 8 pin o (k + 9)
    ++ read_slots 8 pin o (k + 17).

Definition commit_trace (pin address length : Z) (o : line) (k : nat)
  : list event :=
  reset_trace pin (u8 (o k))
    ++ wire_byte pin SKIPROM
    ++ wire_byte pin COPYSCRATCH
    ++ wire_addr pin address
    ++ wire_byte pin (u8 (u8 (Z.land address 0x1F) + (length - 1)))
    ++ [DelayUs 100].

(** The page-boundary condition of a scratchpad transaction. *)
Definition crosses_page (address length : Z) : Prop :=
  Z.land address 0x1F + length - 1 > 0x1F.

(** The bytes [setRTC] writes after the target address, in order. *)
Definition rtc_payload (timestruct : tm) : list Z :=
  [ bcd (tm_sec timestruct);
    bcd (tm_min timestruct);
    bcd_hour (tm_hour timestruct);
    u8 (tm_wday timestruct + 1);
    bcd_month (tm_mon timestruct);
    bcd (tm_year timestruct - 100) ].

Definition wire_bytes (pin : Z) (bytes : list Z) : list event :=
  flat_map (wire_byte pin) bytes.

(** The trace of [if(verifyScratch(...)) commitScratch(...); else ...],
    where [otherwise] is the trace of the else branch. *)
Definition verify_commit_trace (pin address length : Z) (o : line) (k : nat)
    (otherwise : list event) : list event :=
  verify_trace pin o k
    ++ [RetVerify pin address length (verify_value address length o k)]
    ++ (if verify_value address length o k
        then CallCommit pin address length
               :: commit_trace pin address length o (k + 25)
        else otherwise).

(** Samples consumed by the verify-and-commit step. *)
Definition verify_commit_samples (address length : Z) (o : line) (k : nat)
  : nat :=
  if verify_value address length o k then 26%nat else 25%nat.

Definition setRTC_trace (pin : Z) (timestruct : tm) (o : line) (k : nat)
  : list event :=
  reset_trace pin (u8 (o k))
    ++ (if u8 (o k) =? HIGH then [Printf "Error setting RTC."] else
        wire_byte pin SKIPROM
          ++ wire_byte pin WRITESCRATCH
          ++ wire_addr pin RTCSECONDS
          ++ [Localtime]
          ++ wire_bytes pin (rtc_payload timestruct)
          ++ verify_commit_trace pin RTCSECONDS 7 o (k + 1)
               [Printf (String.append "Failed to set RTC" newline)]).

Definition clearMem_trace (pin : Z) (o : line) (k : nat) : list event :=
  let k' := (k + 1 + verify_commit_samples CONTROLREG 1 o (k + 1))%nat in
  reset_trace pin (u8 (o k))
    ++ wire_byte pin SKIPROM
    ++ wire_byte pin WRITESCRATCH
    ++ wire_addr pin CONTROLREG
    ++ wire_byte pin ENABLECLR
    ++ verify_commit_trace pin CONTROLREG 1 o (k + 1) []
    ++ reset_trace pin (u8 (o k'))
    ++ wire_byte pin SKIPROM
    ++ wire_byte pin CLEARMEM
    ++ reset_trace pin (u8 (o (k' + 1)%nat)).

Definition missionStart_trace (pin delay creg : Z) (o : line) (k : nat)
  : list event :=
  let k' := (k + 1 + verify_commit_samples CONTROLREG 6 o (k + 1))%nat in
  reset_trace pin (u8 (o k))
    ++ wire_byte pin SKIPROM
    ++ wire_byte pin WRITESCRATCH
    ++ wire_addr pin CONTROLREG
    ++ wire_bytes pin [creg; 0x00; 0x00; 0x00]
    ++ wire_addr pin delay
    ++ verify_commit_trace pin CONTROLREG 6 o (k + 1) []
    ++ reset_trace pin (u8 (o k')).

(** Every call of [commitScratch] comes after a call of [verifyScratch]
    with the same arguments that returned true. *)
Definition commit_guarded (t : list event) : Prop :=
  forall t1 t2 pin address length,
    t = t1 ++ CallCommit pin address length :: t2 ->
    In (RetVerify pin address length true) t1.

(** Some call of [verifyScratch] returned false. *)
Definition verify_mismatch (t : list event) : Prop :=
  exists pin address length, In (RetVerify pin address length false) t.

(** The address and length of every verify and commit call of a trace. *)
Fixpoint transactions (t : list event) : list (Z * Z) :=
  match t with
  | [] => []
  | RetVerify _ address length _ :: rest => (address, length) :: transactions rest
  | CallCommit _ address length :: rest => (address, length) :: transactions rest
  | _ :: rest => transactions rest
  end.

(** A line with no device on it: the pull-up keeps it high. *)
Definition absent_line : line := fun _ => HIGH.

(** Tuesday 15 June 2021, 12:59:45. *)
Definition sample_time : tm :=
  {| tm_sec := 45; tm_min := 59; tm_hour := 12; tm_mday := 15; tm_mon := 5;
     tm_year := 121; tm_wday := 2; tm_yday := 165; tm_isdst := 0 |}.

(** A device that answers the reset and then reads back the address 0x021F
    and the end offset 0x00. *)
Definition wrap_line : line :=
  replay (0 :: lsb_first 8 0x1F ++ lsb_first 8 0x02 ++ lsb_first 8 0x00).

(** A device that answers both resets of [setRTC] and reads back what the
    verification expects. *)
Definition echo_line : line :=
  replay (0 :: 0 :: lsb_first 8 0x00 ++ lsb_first 8 0x02 ++ lsb_first 8 0x06).

(** A device that answers the reset and then reads back the address 0x0200
    and the end offset 0x06. *)
Definition rtc_line : line :=
  replay (0 :: lsb_first 8 0x00 ++ lsb_first 8 0x02 ++ lsb_first 8 0x06).

(** ** Further observations of a trace *)

(** Total of the busy-wait delays requested, in microseconds. *)
Fixpoint duration (t : list event) : Z :=
  match t with
  | [] => 0
  | DelayUs us :: rest => us + duration rest
  | _ :: rest => duration rest
  end.

(** The direction the pin was set to last, if it was set at all. *)
Fixpoint last_fsel (t : list event) : option fsel_mode :=
  match t with
  | [] => None
  | Fsel _ mode :: rest =>
      match last_fsel rest with
      | Some m => Some m
      | None => Some mode
      end
  | _ :: rest => last_fsel rest
  end.

(** The trace ends with the pin switched back to input: the line is not
    left driven. *)
Definition released (t : list event) : Prop :=
  last_fsel t = Some BCM2835_GPIO_FSEL_INPT.

Definition is_line_read (e : event) : bool :=
  match e with GpioLev _ _ => true | _ => false end.

(** Number of calls of [bcm2835_gpio_lev]. *)
Definition line_reads (t : list event) : nat :=
  List.length (filter is_line_read t).

(** Number of 1 bits among the low eight bits of [v]. *)
Definition ones8 (v : Z) : Z := fold_right Z.add 0 (lsb_first 8 v).

(** A line stuck at one level. *)
Definition stuck_line (c : Z) : line := fun _ => c.

(** ** Running computations *)

Section Run.
Context {A B : Type}.

Lemma bind_eq (m : M A) (f : A -> M B) o k a k1 t1 b k2 t2 :
  m o k = (a, k1, t1) ->
  f a o k1 = (b, k2, t2) ->
  bind m f o k = (b, k2, t1 ++ t2).
Proof.
  intros Hm Hf. unfold bind. rewrite Hm. cbn [val nxt tr fst snd].
  rewrite Hf. reflexivity.
Qed.

Lemma ret_eq (a : A) o k : ret a o k = (a, k, []).
Proof. reflexivity. Qed.

End Run.

Lemma emit_eq e o k : emit e o k = (tt, k, [e]).
Proof. reflexivity. Qed.

Lemma writeBit_run pin b o k : writeBit pin b o k = (tt, k, write_slot pin b).
Proof. reflexivity. Qed.

Lemma writeByte_loop_run n : forall pin byte o k,
  writeByte_loop n pin byte o k = (tt, k, write_slots n pin byte).
Proof.
  induction n as [|n IH]; intros pin byte o k; [reflexivity|].
  cbn [writeByte_loop write_slots].
  eapply bind_eq; [|apply IH].
  destruct (negb (Z.land byte 1 =? 0)); apply writeBit_run.
Qed.

Lemma writeByte_run pin byte o k :
  writeByte pin byte o k = (tt, k, wire_byte pin byte).
Proof. apply writeByte_loop_run. Qed.

Lemma writeAddr_run pin address o k :
  writeAddr pin address o k = (tt, k, wire_addr pin address).
Proof.
  unfold writeAddr, wire_addr.
  eapply bind_eq; apply writeByte_run.
Qed.

Lemma readBit_run pin o k :
  readBit pin o k = (u8 (o k), S k, read_slot pin (u8 (o k))).
Proof. reflexivity. Qed.

Lemma readByte_loop_run n : forall pin i byte o k,
  readByte_loop n pin i byte o k
  = (read_acc n i byte o k, (k + n)%nat, read_slots n pin o k).
Proof.
  induction n as [|n IH]; intros pin i byte o k.
  - cbn. now rewrite Nat.add_0_r.
  - cbn [readByte_loop read_acc read_slots].
    replace (k + S n)%nat with (S k + n)%nat by lia.
    eapply bind_eq; [apply readBit_run|apply IH].
Qed.

Lemma readByte_run pin o k :
  readByte pin o k = (read_value o k, (k + 8)%nat, read_slots 8 pin o k).
Proof. apply readByte_loop_run. Qed.

Lemma reset_run pin o k :
  reset pin o k = (u8 (o k), (k + 1)%nat, reset_trace pin (u8 (o k))).
Proof. rewrite Nat.add_1_r. reflexivity. Qed.

(** One step of symbolic execution: the run of the first call of a
    sequence is known, the goal moves to the rest. *)
Ltac run_call :=
  lazymatch goal with
  | |- reset _ _ _ = _ => apply reset_run
  | |- writeByte _ _ _ _ = _ => apply writeByte_run
  | |- writeAddr _ _ _ _ = _ => apply writeAddr_run
  | |- readByte _ _ _ = _ => apply readByte_run
  | |- emit _ _ _ = _ => apply emit_eq
  | |- bcm2835_delayMicroseconds _ _ _ = _ => apply emit_eq
  | |- printf _ _ _ = _ => apply emit_eq
  | |- ret _ _ _ = _ => apply ret_eq
  end.
Ltac run_step :=
  cbv beta zeta;
  lazymatch goal with
  | |- bind _ _ _ _ = _ => eapply bind_eq; [ run_call | ]
  | |- _ => run_call
  end.

Lemma verifyScratch_run pin address length o k :
  verifyScratch pin address length o k
  = (verify_value address length o k, (k + 25)%nat,
     verify_trace pin o k
       ++ [RetVerify pin address length (verify_value address length o k)]).
Proof.
  unfold verifyScratch.
  etransitivity; [repeat run_step|].
  unfold verify_value, verify_trace.
  replace (k + 1 + 8)%nat with (k + 9)%nat by lia.
  replace (k + 9 + 8)%nat with (k + 17)%nat by lia.
  replace (k + 17 + 8)%nat with (k + 25)%nat by lia.
  rewrite <- !app_assoc. reflexivity.
Qed.

Lemma commitScratch_run pin address length o k :
  commitScratch pin address length o k
  = (tt, (k + 1)%nat,
     CallCommit pin address length :: commit_trace pin address length o k).
Proof.
  unfold commitScratch.
  etransitivity; [repeat run_step|].
  unfold commit_trace.
  cbn [app]. rewrite <- ?app_assoc. reflexivity.
Qed.

(** ** Finite ranges *)

Lemma forallb_range (P : Z -> bool) (n : nat) :
  forallb P (map Z.of_nat (seq 0 n)) = true ->
  forall v, 0 <= v < Z.of_nat n -> P v = true.
Proof.
  intros H v Hv. rewrite forallb_forall in H. apply H.
  apply in_map_iff. exists (Z.to_nat v). split; [lia|].
  apply in_seq. lia.
Qed.

(** ** The byte codec *)

Lemma land_1_bit v :
  (if negb (Z.land v 1 =? 0) then 1 else 0) = Z.b2z (Z.testbit v 0).
Proof.
  change 1 with (Z.ones 1) at 1. rewrite Z.land_ones by lia.
  rewrite Z.bit0_mod. change (2 ^ 1) with 2.
  destruct (Z.eqb_spec (v mod 2) 0) as [E|E]; cbn [negb]; [lia|].
  pose proof (Z.mod_pos_bound v 2 ltac:(lia)). lia.
Qed.

Lemma lsb_first_S n v :
  lsb_first (S n) v = Z.b2z (Z.testbit v 0) :: lsb_first n (Z.shiftr v 1).
Proof.
  unfold lsb_first. cbn [seq map]. f_equal.
  rewrite <- seq_shift, map_map. apply map_ext. intros i.
  rewrite Z.shiftr_spec by lia. do 2 f_equal. lia.
Qed.

Lemma peer_bits_write_slot pin b t :
  peer_bits (write_slot pin b ++ t) = (if b =? 1 then 1 else 0) :: peer_bits t.
Proof.
  unfold write_slot, writeBit_delays.
  destruct (b =? 1); reflexivity.
Qed.

Lemma peer_bits_write_slots n : forall pin v t,
  peer_bits (write_slots n pin v ++ t) = lsb_first n v ++ peer_bits t.
Proof.
  induction n as [|n IH]; intros pin v t; [reflexivity|].
  cbn [write_slots]. rewrite <- app_assoc, peer_bits_write_slot, IH.
  rewrite lsb_first_S, land_1_bit.
  destruct (Z.testbit v 0); reflexivity.
Qed.

Lemma peer_bits_wire_byte pin v : peer_bits (wire_byte pin v) = lsb_first 8 v.
Proof.
  unfold wire_byte.
  rewrite <- (app_nil_r (write_slots 8 pin v)), peer_bits_write_slots.
  apply app_nil_r.
Qed.

(** C9: in a write slot the line is held low for 10 us and released for
    55 us when the bit is 1, held low for 65 us and released for 5 us
    otherwise: the low phase is the shorter one exactly for a 1 bit, and the
    slot lasts at least 60 us either way. *)
Theorem writeBit_slot_timing : forall pin b o k,
  let low := fst (writeBit_delays b) in
  let high := snd (writeBit_delays b) in
  tr (writeBit pin b o k)
  = [ Fsel pin BCM2835_GPIO_FSEL_OUTP; GpioWrite pin LOW; DelayUs low;
      GpioWrite pin HIGH; DelayUs high; Fsel pin BCM2835_GPIO_FSEL_INPT ]
  /\ (if b =? 1 then low <? high else high <? low) = true
  /\ 60 <= low + high
  /\ writeBit_delays 1 = (10, 55)
  /\ writeBit_delays 0 = (65, 5).
Proof.
  intros pin b o k low high. subst low high.
  split; [reflexivity|].
  unfold writeBit_delays. destruct (b =? 1); cbn; repeat split; lia.
Qed.

(** C6: the bits [writeByte] puts on the line are the eight bits of the
    byte, least significant first; [readByte] assembles the eight bits it
    samples with the first one least significant; and reading from a peer
    that replays the bits of a written byte gives the byte back, for every
    value from 0 to 255. *)
Theorem writeByte_readByte_roundtrip : forall pin pin' v o k,
  0 <= v <= 255 ->
  peer_bits (tr (writeByte pin v o k)) = lsb_first 8 v
  /\ (forall c0 c1 c2 c3 c4 c5 c6 c7 : bool,
        val (readByte pin'
               (replay (map Z.b2z [c0; c1; c2; c3; c4; c5; c6; c7])) 0%nat)
        = Z.b2z c0 + 2 * Z.b2z c1 + 4 * Z.b2z c2 + 8 * Z.b2z c3
          + 16 * Z.b2z c4 + 32 * Z.b2z c5 + 64 * Z.b2z c6 + 128 * Z.b2z c7)
  /\ val (readByte pin' (replay (peer_bits (tr (writeByte pin v o k)))) 0%nat)
     = v.
Proof.
  intros pin pin' v o k Hv.
  rewrite writeByte_run. cbn [tr snd]. rewrite peer_bits_wire_byte.
  split; [reflexivity|]. split.
  - intros. rewrite readByte_run. cbn [val fst].
    destruct c0, c1, c2, c3, c4, c5, c6, c7; reflexivity.
  - rewrite readByte_run. cbn [val fst].
    apply Z.eqb_eq.
    apply (forallb_range
             (fun v => read_value (replay (lsb_first 8 v)) 0 =? v) 256);
      [vm_compute; reflexivity|lia].
Qed.

Lemma writeByte_readByte_roundtrip_witness :
  val (readByte 23 (replay (peer_bits (tr (writeByte 23 0xA5 (replay []) 0%nat))))
        0%nat) = 0xA5.
Proof.
  apply (writeByte_readByte_roundtrip 23 23 0xA5 (replay []) 0%nat). lia.
Defined.

(** ** One-shot conversion *)

Lemma oneShotConvert_absent pin o k :
  u8 (o k) = HIGH ->
  oneShotConvert pin o k
  = (float_of_int (-100), (k + 1)%nat, reset_trace pin HIGH).
Proof.
  intros H. unfold oneShotConvert.
  etransitivity.
  { eapply bind_eq; [apply reset_run|]. cbv beta. rewrite H.
    change (HIGH =? HIGH) with true. cbv iota. apply ret_eq. }
  rewrite H, app_nil_r. reflexivity.
Qed.

Lemma oneShotConvert_lost pin o k :
  u8 (o k) <> HIGH -> u8 (o (k + 1)%nat) = HIGH ->
  oneShotConvert pin o k
  = (float_of_int (-100), (k + 1 + 1)%nat,
     reset_trace pin (u8 (o k)) ++ wire_byte pin SKIPROM
       ++ wire_byte pin CONVERTTEMP ++ [DelayUs 200] ++ reset_trace pin HIGH).
Proof.
  intros H0 H1. unfold oneShotConvert.
  etransitivity.
  { eapply bind_eq; [apply reset_run|]. cbv beta.
    rewrite (proj2 (Z.eqb_neq _ _) H0).
    do 4 run_step. cbv beta. rewrite H1.
    change (HIGH =? HIGH) with true. cbv iota. apply ret_eq. }
  rewrite H1, app_nil_r. reflexivity.
Qed.

Lemma oneShotConvert_present pin o k :
  u8 (o k) <> HIGH -> u8 (o (k + 1)%nat) <> HIGH ->
  oneShotConvert pin o k
  = (temperature_of_raw (read_value o (k + 1 + 1)%nat), (k + 1 + 1 + 8)%nat,
     reset_trace pin (u8 (o k)) ++ wire_byte pin SKIPROM
       ++ wire_byte pin CONVERTTEMP ++ [DelayUs 200]
       ++ reset_trace pin (u8 (o (k + 1)%nat)) ++ wire_byte pin SKIPROM
       ++ wire_byte pin READMEM ++ wire_addr pin TEMPADDR
       ++ read_slots 8 pin o (k + 1 + 1)%nat).
Proof.
  intros H0 H1. unfold oneShotConvert.
  etransitivity.
  { eapply bind_eq; [apply reset_run|]. cbv beta.
    rewrite (proj2 (Z.eqb_neq _ _) H0).
    do 4 run_step. cbv beta.
    rewrite (proj2 (Z.eqb_neq _ _) H1).
    repeat run_step. }
  rewrite app_nil_r. reflexivity.
Qed.

Lemma read_value_range o k : binary_line o -> 0 <= read_value o k <= 255.
Proof.
  intros H. unfold read_value. cbn [read_acc].
  generalize (H k) (H (S k)) (H (S (S k))) (H (S (S (S k))))
             (H (S (S (S (S k))))) (H (S (S (S (S (S k))))))
             (H (S (S (S (S (S (S k)))))))
             (H (S (S (S (S (S (S (S k)))))))).
  generalize (o k) (o (S k)) (o (S (S k))) (o (S (S (S k))))
             (o (S (S (S (S k))))) (o (S (S (S (S (S k))))))
             (o (S (S (S (S (S (S k)))))))
             (o (S (S (S (S (S (S (S k)))))))).
  intros b0 b1 b2 b3 b4 b5 b6 b7.
  intros [->| ->] [->| ->] [->| ->] [->| ->] [->| ->] [->| ->] [->| ->] [->| ->];
    vm_compute; split; discriminate.
Qed.

Lemma temperature_of_raw_exact raw :
  0 <= raw <= 255 ->
  is_finite (temperature_of_raw raw) = true
  /\ (SF2Q (temperature_of_raw raw) == inject_Z raw / 2 - 40)%Q.
Proof.
  intros Hr.
  assert (E : is_finite (temperature_of_raw raw)
              && Qeq_bool (SF2Q (temperature_of_raw raw))
                          (inject_Z raw / 2 - 40) = true).
  { apply (forallb_range
             (fun r => is_finite (temperature_of_raw r)
                       && Qeq_bool (SF2Q (temperature_of_raw r))
                                   (inject_Z r / 2 - 40)) 256);
      [vm_compute; reflexivity|lia]. }
  apply andb_true_iff in E. destruct E as [E1 E2].
  split; [exact E1|]. apply Qeq_bool_eq, E2.
Qed.

Lemma temperature_of_raw_range raw :
  0 <= raw <= 255 ->
  (-40 <= SF2Q (temperature_of_raw raw) <= 875 # 10)%Q.
Proof.
  intros Hr.
  assert (E : Qle_bool (-40) (SF2Q (temperature_of_raw raw))
              && Qle_bool (SF2Q (temperature_of_raw raw)) (875 # 10) = true).
  { apply (forallb_range
             (fun r => Qle_bool (-40) (SF2Q (temperature_of_raw r))
                       && Qle_bool (SF2Q (temperature_of_raw r)) (875 # 10))
             256); [vm_compute; reflexivity|lia]. }
  apply andb_true_iff in E. destruct E as [E1 E2].
  split; apply Qle_bool_iff; assumption.
Qed.

Lemma binary_replay bits :
  forallb (fun b => (b =? 0) || (b =? 1)) bits = true ->
  binary_line (replay bits).
Proof.
  intros H k. unfold replay.
  destruct (nth_in_or_default k bits 0) as [Hin| ->]; [|now left].
  rewrite forallb_forall in H. specialize (H _ Hin).
  apply orb_true_iff in H. destruct H as [H|H]; apply Z.eqb_eq in H; auto.
Qed.

(** C7: when both resets see a presence pulse, [oneShotConvert] selects
    the temperature register 0x0211, reads one byte and returns its decode;
    the decode of a byte [raw] is a finite [float] that equals raw/2 - 40
    exactly, so that 0x00 gives -40.0, 0x50 gives 0.0 and 0xFF gives 87.5. *)
Theorem oneShotConvert_temperature_decode : forall pin o,
  u8 (o 0%nat) <> HIGH -> u8 (o 1%nat) <> HIGH ->
  sent_bytes (tr (oneShotConvert pin o 0%nat))
  = [SKIPROM; CONVERTTEMP; SKIPROM; READMEM; 0x11; 0x02]
  /\ val (oneShotConvert pin o 0%nat)
     = temperature_of_raw (val (readByte pin o 2%nat))
  /\ (forall raw, 0 <= raw <= 255 ->
        is_finite (temperature_of_raw raw) = true
        /\ (SF2Q (temperature_of_raw raw) == inject_Z raw / 2 - 40)%Q)
  /\ (SF2Q (temperature_of_raw 0x00) == -40)%Q
  /\ temperature_of_raw 0x50 = S754_zero false
  /\ (SF2Q (temperature_of_raw 0xFF) == 875 # 10)%Q.
Proof.
  intros pin o H0 H1.
  rewrite (oneShotConvert_present pin o 0 H0 H1), readByte_run.
  cbn [val tr fst snd].
  repeat split; try reflexivity.
  - apply (temperature_of_raw_exact raw); assumption.
  - apply (temperature_of_raw_exact raw); assumption.
Qed.

Lemma oneShotConvert_temperature_decode_witness :
  val (oneShotConvert 23 (replay [0; 0; 1; 1; 1; 1; 1; 1; 1; 1]) 0%nat)
  = temperature_of_raw 0xFF.
Proof.
  apply (oneShotConvert_temperature_decode
           23 (replay [0; 0; 1; 1; 1; 1; 1; 1; 1; 1]));
    vm_compute; discriminate.
Defined.

Lemma temperature_not_sentinel raw :
  0 <= raw <= 255 -> temperature_of_raw raw <> float_of_int (-100).
Proof.
  intros Hr E. pose proof (temperature_of_raw_range raw Hr) as [Hlo _].
  rewrite E in Hlo. vm_compute in Hlo. apply Hlo. reflexivity.
Qed.

(** C10: on a line whose samples are all 0 or 1, [readByte] returns a value
    from 0 to 255, and [oneShotConvert] returns either the sentinel, which
    is exactly -100, or a finite value between -40.0 and 87.5.  The two
    cases do not meet: the sentinel is returned exactly when a presence
    check fails, and when both resets see the presence pulse the result is
    the decode of the byte read, raw/2 - 40, which lies between -40.0 and
    87.5 and is not the sentinel. *)
Theorem oneShotConvert_sentinel_or_range : forall pin o,
  binary_line o ->
  (forall k, 0 <= val (readByte pin o k) <= 255)
  /\ (SF2Q (float_of_int (-100)) == -100)%Q
  /\ (val (oneShotConvert pin o 0%nat) = float_of_int (-100)
      \/ (is_finite (val (oneShotConvert pin o 0%nat)) = true
          /\ (-40 <= SF2Q (val (oneShotConvert pin o 0%nat)) <= 875 # 10)%Q))
  /\ (val (oneShotConvert pin o 0%nat) = float_of_int (-100)
      <-> o 0%nat = HIGH \/ (o 0%nat = LOW /\ o 1%nat = HIGH))
  /\ (o 0%nat = LOW -> o 1%nat = LOW ->
      val (oneShotConvert pin o 0%nat)
      = temperature_of_raw (val (readByte pin o 2%nat))
      /\ is_finite (val (oneShotConvert pin o 0%nat)) = true
      /\ (SF2Q (val (oneShotConvert pin o 0%nat))
          == inject_Z (val (readByte pin o 2%nat)) / 2 - 40)%Q
      /\ (-40 <= SF2Q (val (oneShotConvert pin o 0%nat)) <= 875 # 10)%Q
      /\ val (oneShotConvert pin o 0%nat) <> float_of_int (-100)).
Proof.
  intros pin o Ho.
  assert (Hu : forall j, u8 (o j) = o j).
  { intros j. destruct (Ho j) as [-> | ->]; reflexivity. }
  pose proof (read_value_range o 2 Ho) as Hr.
  assert (Hok : o 0%nat = LOW -> o 1%nat = LOW ->
                val (oneShotConvert pin o 0%nat)
                = temperature_of_raw (read_value o 2)).
  { intros E0 E1.
    assert (H0 : u8 (o 0%nat) <> HIGH) by (rewrite Hu, E0; discriminate).
    assert (H1 : u8 (o 1%nat) <> HIGH) by (rewrite Hu, E1; discriminate).
    now rewrite (oneShotConvert_present pin o 0 H0 H1). }
  assert (Hno : o 0%nat = HIGH \/ (o 0%nat = LOW /\ o 1%nat = HIGH) ->
                val (oneShotConvert pin o 0%nat) = float_of_int (-100)).
  { intros [E0|[E0 E1]].
    - assert (H0 : u8 (o 0%nat) = HIGH) by (rewrite Hu, E0; reflexivity).
      now rewrite (oneShotConvert_absent pin o 0 H0).
    - assert (H0 : u8 (o 0%nat) <> HIGH) by (rewrite Hu, E0; discriminate).
      assert (H1 : u8 (o 1%nat) = HIGH) by (rewrite Hu, E1; reflexivity).
      now rewrite (oneShotConvert_lost pin o 0 H0 H1). }
  assert (Hcases : (o 0%nat = LOW /\ o 1%nat = LOW)
                   \/ (o 0%nat = HIGH \/ (o 0%nat = LOW /\ o 1%nat = HIGH))).
  { unfold LOW, HIGH. destruct (Ho 0%nat), (Ho 1%nat); auto. }
  split; [|split; [|split; [|split]]].
  - intros k. rewrite readByte_run. apply read_value_range, Ho.
  - reflexivity.
  - destruct Hcases as [[E0 E1]|Hfail].
    + right. rewrite (Hok E0 E1).
      split; [apply temperature_of_raw_exact, Hr|].
      apply temperature_of_raw_range, Hr.
    + left. apply Hno, Hfail.
  - split; [|exact Hno].
    intros E. destruct Hcases as [[E0 E1]|Hfail]; [|exact Hfail].
    exfalso. rewrite (Hok E0 E1) in E.
    exact (temperature_not_sentinel _ Hr E).
  - intros E0 E1. rewrite (Hok E0 E1), readByte_run. cbn [val fst].
    split; [reflexivity|].
    split; [apply temperature_of_raw_exact, Hr|].
    split; [apply temperature_of_raw_exact, Hr|].
    split; [apply temperature_of_raw_range, Hr|].
    apply temperature_not_sentinel, Hr.
Qed.

Lemma oneShotConvert_sentinel_or_range_witness :
  val (oneShotConvert 23 (replay [0; 0; 1; 1; 1; 1; 1; 1; 1; 1]) 0%nat)
  = temperature_of_raw 0xFF
  /\ val (oneShotConvert 23 (replay [0; 0; 1; 1; 1; 1; 1; 1; 1; 1]) 0%nat)
     <> float_of_int (-100)
  /\ val (oneShotConvert 23 (replay [1]) 0%nat) = float_of_int (-100).
Proof.
  destruct (oneShotConvert_sentinel_or_range
              23 (replay [0; 0; 1; 1; 1; 1; 1; 1; 1; 1]))
    as (_ & _ & _ & _ & Hok); [apply binary_replay; reflexivity|].
  destruct (Hok eq_refl eq_refl) as (Hv & _ & _ & _ & Hne).
  destruct (oneShotConvert_sentinel_or_range 23 (replay [1]))
    as (_ & _ & _ & Hiff & _); [apply binary_replay; reflexivity|].
  split; [exact Hv|]. split; [exact Hne|].
  apply Hiff. left. reflexivity.
Defined.

(** ** The operations built on verify-and-commit *)

Ltac run_call2 :=
  lazymatch goal with
  | |- verifyScratch _ _ _ _ _ = _ => apply verifyScratch_run
  | |- commitScratch _ _ _ _ _ = _ => apply commitScratch_run
  | |- _ => run_call
  end.
Ltac run_step2 :=
  cbv beta zeta;
  lazymatch goal with
  | |- bind _ _ _ _ = _ => eapply bind_eq; [ run_call2 | ]
  | |- _ => run_call2
  end.

Lemma setRTC_tr pin timestruct o k :
  tr (setRTC pin timestruct o k) = setRTC_trace pin timestruct o k.
Proof.
  unfold setRTC_trace, verify_commit_trace, wire_bytes, rtc_payload.
  destruct (Z.eqb_spec (u8 (o k)) HIGH) as [H|H].
  - etransitivity.
    { apply (f_equal tr). unfold setRTC.
      eapply bind_eq; [apply reset_run|]. cbv beta.
      rewrite H. change (HIGH =? HIGH) with true. cbv iota. apply emit_eq. }
    reflexivity.
  - destruct (verify_value RTCSECONDS 7 o (k + 1)) eqn:V.
    all: etransitivity;
      [ apply (f_equal tr); unfold setRTC;
        eapply bind_eq; [apply reset_run|]; cbv beta;
        rewrite (proj2 (Z.eqb_neq _ _) H);
        do 11 run_step2; cbv beta; rewrite V; cbv iota; run_step2
      | cbn [tr snd flat_map app]; rewrite ?V, <- ?app_assoc; cbn [app];
        reflexivity ].
Qed.

Lemma clearMem_tr pin o k : tr (clearMem pin o k) = clearMem_trace pin o k.
Proof.
  unfold clearMem_trace, verify_commit_trace, verify_commit_samples.
  destruct (verify_value CONTROLREG 1 o (k + 1)) eqn:V.
  all: etransitivity;
    [ apply (f_equal tr); unfold clearMem;
      do 6 run_step2; cbv beta; rewrite V; cbv iota; repeat run_step2
    | cbn [tr snd app]; rewrite ?V, <- ?app_assoc; cbn [app];
      rewrite ?app_nil_r;
      replace (k + 1 + 25 + 1)%nat with (k + 1 + 26)%nat by lia;
      reflexivity ].
Qed.

Lemma missionStart_tr pin delay creg o k :
  tr (missionStart pin delay creg o k) = missionStart_trace pin delay creg o k.
Proof.
  unfold missionStart_trace, verify_commit_trace, verify_commit_samples,
    wire_bytes.
  destruct (verify_value CONTROLREG 6 o (k + 1)) eqn:V.
  all: etransitivity;
    [ apply (f_equal tr); unfold missionStart;
      do 10 run_step2; cbv beta; rewrite V; cbv iota; repeat run_step2
    | cbn [tr snd app flat_map]; rewrite ?V, <- ?app_assoc; cbn [app];
      rewrite ?app_nil_r;
      replace (k + 1 + 25 + 1)%nat with (k + 1 + 26)%nat by lia;
      reflexivity ].
Qed.

(** ** Markers of the traces *)

Lemma markers_app t1 t2 : markers (t1 ++ t2) = markers t1 ++ markers t2.
Proof. apply filter_app. Qed.

Lemma markers_write_slots n : forall pin v, markers (write_slots n pin v) = [].
Proof.
  induction n as [|n IH]; intros pin v; [reflexivity|].
  cbn [write_slots]. rewrite markers_app, IH. reflexivity.
Qed.

Lemma markers_wire_byte pin v : markers (wire_byte pin v) = [].
Proof. apply markers_write_slots. Qed.

Lemma markers_wire_addr pin a : markers (wire_addr pin a) = [].
Proof.
  unfold wire_addr. now rewrite markers_app, !markers_wire_byte.
Qed.

Lemma markers_wire_bytes pin l : markers (wire_bytes pin l) = [].
Proof.
  induction l as [|v l IH]; [reflexivity|].
  unfold wire_bytes in *. cbn [flat_map].
  now rewrite markers_app, markers_wire_byte, IH.
Qed.

Lemma markers_read_slots n : forall pin o k, markers (read_slots n pin o k) = [].
Proof.
  induction n as [|n IH]; intros pin o k; [reflexivity|].
  cbn [read_slots]. rewrite markers_app, IH. reflexivity.
Qed.

Lemma markers_reset_trace pin b : markers (reset_trace pin b) = [].
Proof. reflexivity. Qed.

Lemma markers_verify_trace pin o k : markers (verify_trace pin o k) = [].
Proof.
  unfold verify_trace.
  now rewrite !markers_app, !markers_wire_byte, !markers_read_slots.
Qed.

Lemma markers_commit_trace pin a l o k : markers (commit_trace pin a l o k) = [].
Proof.
  unfold commit_trace.
  now rewrite !markers_app, !markers_wire_byte, markers_wire_addr.
Qed.

Lemma markers_verify_commit pin a l o k other :
  markers other = [] ->
  markers (verify_commit_trace pin a l o k other)
  = RetVerify pin a l (verify_value a l o k)
      :: (if verify_value a l o k then [CallCommit pin a l] else []).
Proof.
  intros Hother. unfold verify_commit_trace.
  rewrite !markers_app, markers_verify_trace.
  destruct (verify_value a l o k); cbn [app markers filter is_marker].
  - fold (markers (commit_trace pin a l o (k + 25))).
    now rewrite markers_commit_trace.
  - fold (markers other). now rewrite Hother.
Qed.

Create Rewrite HintDb markers_db.
#[local] Hint Rewrite markers_app markers_wire_byte markers_wire_addr
  markers_wire_bytes markers_reset_trace : markers_db.

Lemma markers_setRTC pin timestruct o k :
  markers (tr (setRTC pin timestruct o k))
  = if u8 (o k) =? HIGH then [] else
      RetVerify pin RTCSECONDS 7 (verify_value RTCSECONDS 7 o (k + 1))
        :: (if verify_value RTCSECONDS 7 o (k + 1)
            then [CallCommit pin RTCSECONDS 7] else []).
Proof.
  rewrite setRTC_tr. unfold setRTC_trace.
  destruct (u8 (o k) =? HIGH); autorewrite with markers_db; [reflexivity|].
  rewrite markers_verify_commit by reflexivity. reflexivity.
Qed.

Lemma markers_clearMem pin o k :
  markers (tr (clearMem pin o k))
  = RetVerify pin CONTROLREG 1 (verify_value CONTROLREG 1 o (k + 1))
      :: (if verify_value CONTROLREG 1 o (k + 1)
          then [CallCommit pin CONTROLREG 1] else []).
Proof.
  rewrite clearMem_tr. unfold clearMem_trace.
  autorewrite with markers_db.
  rewrite markers_verify_commit by reflexivity.
  cbn [app]. now rewrite app_nil_r.
Qed.

Lemma markers_missionStart pin delay creg o k :
  markers (tr (missionStart pin delay creg o k))
  = RetVerify pin CONTROLREG 6 (verify_value CONTROLREG 6 o (k + 1))
      :: (if verify_value CONTROLREG 6 o (k + 1)
          then [CallCommit pin CONTROLREG 6] else []).
Proof.
  rewrite missionStart_tr. unfold missionStart_trace.
  autorewrite with markers_db.
  rewrite markers_verify_commit by reflexivity.
  cbn [app]. now rewrite app_nil_r.
Qed.

Lemma commits_markers t : commits t = commits (markers t).
Proof.
  unfold commits, markers.
  induction t as [|e t IH]; [reflexivity|].
  destruct e; cbn [filter is_commit is_marker]; cbn; congruence.
Qed.

Lemma in_markers e t : is_marker e = true -> In e t -> In e (markers t).
Proof. intros He Hin. apply filter_In. split; assumption. Qed.

Lemma markers_in e t : In e (markers t) -> In e t.
Proof. intros H. apply filter_In in H. apply H. Qed.

(** A trace whose only calls are one [verifyScratch] and, when that
    returned true, one [commitScratch] with the same arguments. *)
Lemma single_transaction_guarded t pin a l b :
  markers t = RetVerify pin a l b :: (if b then [CallCommit pin a l] else []) ->
  commit_guarded t /\ (verify_mismatch t -> commits t = 0%nat).
Proof.
  intros Hm. split.
  - intros t1 t2 p' a' l' Ht.
    assert (Hs : markers t
                 = markers t1 ++ CallCommit p' a' l' :: markers t2).
    { rewrite Ht, markers_app. reflexivity. }
    rewrite Hm in Hs.
    destruct (markers t1) as [|e1 m1] eqn:E1.
    + cbn [app] in Hs. discriminate Hs.
    + cbn [app] in Hs. injection Hs as He Hrest. subst e1.
      destruct b.
      * destruct m1 as [|e2 m2].
        -- cbn [app] in Hrest. injection Hrest as -> -> ->.
           apply markers_in. rewrite E1. now left.
        -- cbn [app] in Hrest. injection Hrest as _ Hnil.
           destruct m2; discriminate Hnil.
      * destruct m1; discriminate Hrest.
  - intros (p' & a' & l' & Hin).
    apply in_markers in Hin; [|reflexivity]. rewrite Hm in Hin.
    rewrite commits_markers, Hm.
    destruct b; [|reflexivity].
    destruct Hin as [Hin|[Hin|[]]]; discriminate Hin.
Qed.

Lemma no_transaction_guarded t :
  markers t = [] ->
  commit_guarded t /\ (verify_mismatch t -> commits t = 0%nat).
Proof.
  intros Hm. split.
  - intros t1 t2 p' a' l' Ht.
    assert (Hs : markers t
                 = markers t1 ++ CallCommit p' a' l' :: markers t2).
    { rewrite Ht, markers_app. reflexivity. }
    rewrite Hm in Hs. destruct (markers t1); discriminate Hs.
  - intros _. now rewrite commits_markers, Hm.
Qed.

(** C1: in every run of [setRTC], [clearMem] and [missionStart], each call
    of [commitScratch] is preceded by a call of [verifyScratch] with the
    same pin, address and length that returned true; and when
    [verifyScratch] returned false, [commitScratch] is not called at all. *)
Theorem commit_only_after_verify : forall pin timestruct delay creg o,
  Forall (fun t => commit_guarded t
                   /\ (verify_mismatch t -> commits t = 0%nat))
    [ tr (setRTC pin timestruct o 0%nat);
      tr (clearMem pin o 0%nat);
      tr (missionStart pin delay creg o 0%nat) ].
Proof.
  intros pin timestruct delay creg o.
  apply Forall_cons; [|apply Forall_cons; [|apply Forall_cons; [|apply Forall_nil]]].
  - pose proof (markers_setRTC pin timestruct o 0) as Hm. revert Hm.
    destruct (u8 (o 0%nat) =? HIGH); intros Hm.
    + apply no_transaction_guarded, Hm.
    + eapply single_transaction_guarded, Hm.
  - eapply single_transaction_guarded, markers_clearMem.
  - eapply single_transaction_guarded, markers_missionStart.
Qed.

Lemma commit_only_after_verify_witness :
  verify_mismatch (tr (clearMem 23 absent_line 0%nat))
  /\ commits (tr (clearMem 23 absent_line 0%nat)) = 0%nat.
Proof.
  assert (Hm : verify_mismatch (tr (clearMem 23 absent_line 0%nat))).
  { exists 23, CONTROLREG, 1. apply markers_in. vm_compute. left. reflexivity. }
  split; [exact Hm|].
  pose proof (commit_only_after_verify 23 sample_time 0 0 absent_line) as H.
  apply Forall_inv_tail, Forall_inv in H. apply H, Hm.
Defined.

(** The guard is not vacuous: when the device reads back what
    [verifyScratch] expects, [setRTC] does call [commitScratch], once. *)
Example setRTC_commits_when_verified :
  markers (tr (setRTC 23 sample_time echo_line 0%nat))
  = [RetVerify 23 RTCSECONDS 7 true; CallCommit 23 RTCSECONDS 7]
  /\ commits (tr (setRTC 23 sample_time echo_line 0%nat)) = 1%nat.
Proof. vm_compute. split; reflexivity. Qed.

(** ** What a peer receives *)

Lemma peer_bits_reset_trace pin b t :
  peer_bits (reset_trace pin b ++ t) = peer_bits t.
Proof. reflexivity. Qed.

Lemma peer_bits_wire_byte_app pin v t :
  peer_bits (wire_byte pin v ++ t) = lsb_first 8 v ++ peer_bits t.
Proof. apply peer_bits_write_slots. Qed.

Lemma peer_bits_wire_addr_app pin a t :
  peer_bits (wire_addr pin a ++ t)
  = lsb_first 8 (Z.land a 0xFF)
      ++ lsb_first 8 (Z.land (Z.shiftr a 8) 0xFF) ++ peer_bits t.
Proof.
  unfold wire_addr.
  now rewrite <- app_assoc, !peer_bits_wire_byte_app.
Qed.

Lemma peer_bits_wire_bytes_app pin l t :
  peer_bits (wire_bytes pin l ++ t) = flat_map (lsb_first 8) l ++ peer_bits t.
Proof.
  induction l as [|v l IH]; [reflexivity|].
  unfold wire_bytes in *. cbn [flat_map].
  now rewrite <- !app_assoc, peer_bits_wire_byte_app, IH.
Qed.

Lemma peer_bits_read_slots n : forall pin o k t,
  peer_bits (read_slots n pin o k ++ t) = peer_bits t.
Proof.
  induction n as [|n IH]; intros pin o k t; [reflexivity|].
  cbn [read_slots]. rewrite <- app_assoc.
  change (peer_bits (read_slot pin (u8 (o k)) ++ read_slots n pin o (S k) ++ t))
    with (peer_bits (read_slots n pin o (S k) ++ t)).
  apply IH.
Qed.

Lemma peer_bits_verify_trace pin o k t :
  peer_bits (verify_trace pin o k ++ t)
  = lsb_first 8 SKIPROM ++ lsb_first 8 READSCRATCH ++ peer_bits t.
Proof.
  unfold verify_trace. rewrite <- !app_assoc.
  now rewrite peer_bits_reset_trace, !peer_bits_wire_byte_app,
    !peer_bits_read_slots.
Qed.

Lemma peer_bits_commit_trace pin a l o k t :
  peer_bits (commit_trace pin a l o k ++ t)
  = lsb_first 8 SKIPROM ++ lsb_first 8 COPYSCRATCH
      ++ lsb_first 8 (Z.land a 0xFF)
      ++ lsb_first 8 (Z.land (Z.shiftr a 8) 0xFF)
      ++ lsb_first 8 (u8 (u8 (Z.land a 0x1F) + (l - 1)))
      ++ peer_bits t.
Proof.
  unfold commit_trace. rewrite <- !app_assoc.
  rewrite peer_bits_reset_trace, !peer_bits_wire_byte_app,
    peer_bits_wire_addr_app, peer_bits_wire_byte_app.
  reflexivity.
Qed.

Lemma byte_of_bits w :
  0 <= w < 256 ->
  Z.b2z (Z.testbit w 0) + 2 * Z.b2z (Z.testbit w 1)
  + 4 * Z.b2z (Z.testbit w 2) + 8 * Z.b2z (Z.testbit w 3)
  + 16 * Z.b2z (Z.testbit w 4) + 32 * Z.b2z (Z.testbit w 5)
  + 64 * Z.b2z (Z.testbit w 6) + 128 * Z.b2z (Z.testbit w 7) = w.
Proof.
  intros Hw. apply Z.eqb_eq.
  apply (forallb_range
           (fun w => Z.b2z (Z.testbit w 0) + 2 * Z.b2z (Z.testbit w 1)
                     + 4 * Z.b2z (Z.testbit w 2) + 8 * Z.b2z (Z.testbit w 3)
                     + 16 * Z.b2z (Z.testbit w 4) + 32 * Z.b2z (Z.testbit w 5)
                     + 64 * Z.b2z (Z.testbit w 6) + 128 * Z.b2z (Z.testbit w 7)
                     =? w) 256); [vm_compute; reflexivity|lia].
Qed.

Lemma lsb_first_u8 v : lsb_first 8 (u8 v) = lsb_first 8 v.
Proof.
  unfold lsb_first, u8. apply map_ext_in. intros i Hi.
  apply in_seq in Hi. f_equal.
  change 256 with (2 ^ 8). apply Z.mod_pow2_bits_low. lia.
Qed.

Lemma peer_bytes_lsb_first v rest :
  peer_bytes (lsb_first 8 v ++ rest) = u8 v :: peer_bytes rest.
Proof.
  rewrite <- lsb_first_u8.
  assert (Hv : 0 <= u8 v < 256) by (apply Z.mod_pos_bound; lia).
  generalize dependent (u8 v). intros w Hw.
  unfold lsb_first. cbn [seq map app peer_bytes Z.of_nat Pos.of_succ_nat Pos.succ].
  f_equal. apply byte_of_bits, Hw.
Qed.

Lemma u8_u8 v : u8 (u8 v) = u8 v.
Proof. unfold u8. apply Z.mod_mod. lia. Qed.

Lemma u8_rtc_payload timestruct :
  map u8 (rtc_payload timestruct) = rtc_payload timestruct.
Proof.
  unfold rtc_payload, bcd, bcd_hour, bcd_month. cbn [map].
  now rewrite !u8_u8.
Qed.

Lemma peer_bytes_payload l rest :
  peer_bytes (flat_map (lsb_first 8) l ++ rest) = map u8 l ++ peer_bytes rest.
Proof.
  induction l as [|v l IH]; [reflexivity|].
  cbn [flat_map map]. rewrite <- app_assoc, peer_bytes_lsb_first, IH.
  reflexivity.
Qed.

Lemma peer_bits_skip e t :
  is_line_write e = false -> peer_bits (e :: t) = peer_bits t.
Proof. destruct e; intros H; try reflexivity. discriminate H. Qed.

Lemma peer_bits_skip_app e t :
  is_line_write e = false -> peer_bits ([e] ++ t) = peer_bits t.
Proof. apply peer_bits_skip. Qed.

Lemma sent_bytes_verify_commit pin a l o k other :
  peer_bits other = [] ->
  peer_bits (verify_commit_trace pin a l o k other)
  = lsb_first 8 SKIPROM ++ lsb_first 8 READSCRATCH
      ++ (if verify_value a l o k
          then lsb_first 8 SKIPROM ++ lsb_first 8 COPYSCRATCH
                 ++ lsb_first 8 (Z.land a 0xFF)
                 ++ lsb_first 8 (Z.land (Z.shiftr a 8) 0xFF)
                 ++ lsb_first 8 (u8 (u8 (Z.land a 0x1F) + (l - 1)))
          else []).
Proof.
  intros Hother. unfold verify_commit_trace.
  rewrite peer_bits_verify_trace. do 2 f_equal.
  rewrite peer_bits_skip_app by reflexivity.
  destruct (verify_value a l o k); [|exact Hother].
  rewrite peer_bits_skip by reflexivity.
  rewrite <- (app_nil_r (commit_trace pin a l o (k + 25))).
  rewrite peer_bits_commit_trace.
  change (peer_bits []) with (@nil Z).
  now rewrite !app_nil_r.
Qed.

Lemma setRTC_sent_bytes pin timestruct o k :
  u8 (o k) <> HIGH ->
  sent_bytes (tr (setRTC pin timestruct o k))
  = [SKIPROM; WRITESCRATCH; 0x00; 0x02]
      ++ rtc_payload timestruct
      ++ [SKIPROM; READSCRATCH]
      ++ (if verify_value RTCSECONDS 7 o (k + 1)
          then [SKIPROM; COPYSCRATCH; 0x00; 0x02; 0x06] else []).
Proof.
  intros H. rewrite setRTC_tr. unfold setRTC_trace, sent_bytes.
  rewrite (proj2 (Z.eqb_neq _ _) H).
  rewrite peer_bits_reset_trace, !peer_bits_wire_byte_app,
    peer_bits_wire_addr_app.
  rewrite peer_bits_skip_app by reflexivity.
  rewrite peer_bits_wire_bytes_app, sent_bytes_verify_commit by reflexivity.
  rewrite !peer_bytes_lsb_first, peer_bytes_payload, u8_rtc_payload.
  rewrite !peer_bytes_lsb_first.
  destruct (verify_value RTCSECONDS 7 o (k + 1)).
  - rewrite !peer_bytes_lsb_first.
    rewrite <- (app_nil_r (lsb_first 8 _)), peer_bytes_lsb_first.
    reflexivity.
  - reflexivity.
Qed.

(** ** The clock payload *)

Lemma bcd_digits v :
  0 <= v <= 59 -> bcd v = Z.lor (Z.shiftl (v / 10) 4) (v mod 10).
Proof.
  intros Hv. apply Z.eqb_eq.
  apply (forallb_range
           (fun v => bcd v =? Z.lor (Z.shiftl (v / 10) 4) (v mod 10)) 60);
    [vm_compute; reflexivity|lia].
Qed.

(** C8: the first two payload bytes [setRTC] sends are the seconds and the
    minutes, each packed as (tens << 4) | units for every value from 0 to
    59; 45 is packed as 0x45 and 59 as 0x59. *)
Theorem setRTC_bcd_seconds_minutes : forall pin timestruct o,
  u8 (o 0%nat) <> HIGH ->
  0 <= tm_sec timestruct <= 59 ->
  0 <= tm_min timestruct <= 59 ->
  nth 4 (sent_bytes (tr (setRTC pin timestruct o 0%nat))) 0
  = Z.lor (Z.shiftl (tm_sec timestruct / 10) 4) (tm_sec timestruct mod 10)
  /\ nth 5 (sent_bytes (tr (setRTC pin timestruct o 0%nat))) 0
     = Z.lor (Z.shiftl (tm_min timestruct / 10) 4) (tm_min timestruct mod 10)
  /\ bcd 45 = 0x45
  /\ bcd 59 = 0x59.
Proof.
  intros pin timestruct o H Hs Hm.
  rewrite (setRTC_sent_bytes pin timestruct o 0 H).
  unfold rtc_payload. cbn [app nth].
  rewrite (bcd_digits _ Hs), (bcd_digits _ Hm).
  repeat split; reflexivity.
Qed.

Lemma setRTC_bcd_seconds_minutes_witness :
  nth 4 (sent_bytes (tr (setRTC 23 sample_time (replay []) 0%nat))) 0 = 0x45
  /\ nth 5 (sent_bytes (tr (setRTC 23 sample_time (replay []) 0%nat))) 0
     = 0x59.
Proof.
  destruct (setRTC_bcd_seconds_minutes 23 sample_time (replay []))
    as (Hs & Hm & _).
  - vm_compute. discriminate.
  - vm_compute. split; discriminate.
  - vm_compute. split; discriminate.
  - split; [exact Hs|exact Hm].
Defined.

(** C5: on the sample time, with a device present, [setRTC] sends the
    write-scratchpad command for 0x0200 followed by six payload bytes
    (seconds, minutes, hours, weekday, month, year) and no day of the month,
    and then asks [verifyScratch] for a length of 7. *)
Theorem setRTC_sends_six_payload_bytes :
  sent_bytes (tr (setRTC 23 sample_time (replay []) 0%nat))
  = [SKIPROM; WRITESCRATCH; 0x00; 0x02;
     0x45; 0x59; 0x52; 0x03; 0x86; 0x21;
     SKIPROM; READSCRATCH]
  /\ List.length (rtc_payload sample_time) = 6%nat
  /\ transactions (tr (setRTC 23 sample_time (replay []) 0%nat))
     = [(RTCSECONDS, 7)].
Proof. vm_compute. repeat split; reflexivity. Qed.

(** The hour byte always has bit 6 set; bit 4 is set above 10 and bit 5
    above 20. *)
Example bcd_hour_values :
  bcd_hour 9 = 0x49 /\ bcd_hour 10 = 0x40 /\ bcd_hour 12 = 0x52
  /\ bcd_hour 20 = 0x50 /\ bcd_hour 23 = 0x73.
Proof. repeat split; reflexivity. Qed.

(** C2: on a line with no device, [oneShotConvert] and [setRTC] stop after
    the reset pulse, but [clearMem] and [missionStart] go on and send their
    whole command sequence. *)
Theorem clearMem_missionStart_ignore_presence :
  u8 (absent_line 0%nat) = HIGH
  /\ val (oneShotConvert 23 absent_line 0%nat) = float_of_int (-100)
  /\ line_writes (tr (oneShotConvert 23 absent_line 0%nat)) = 1%nat
  /\ line_writes (tr (setRTC 23 sample_time absent_line 0%nat)) = 1%nat
  /\ sent_bytes (tr (clearMem 23 absent_line 0%nat))
     = [SKIPROM; WRITESCRATCH; 0x0E; 0x02; ENABLECLR;
        SKIPROM; READSCRATCH; SKIPROM; CLEARMEM]
  /\ line_writes (tr (clearMem 23 absent_line 0%nat)) = 172%nat
  /\ sent_bytes (tr (missionStart 23 0x0102 0x00 absent_line 0%nat))
     = [SKIPROM; WRITESCRATCH; 0x0E; 0x02; 0x00; 0x00; 0x00; 0x00; 0x02; 0x01;
        SKIPROM; READSCRATCH]
  /\ line_writes (tr (missionStart 23 0x0102 0x00 absent_line 0%nat))
     = 219%nat.
Proof. vm_compute. repeat split; reflexivity. Qed.

(** ** Scratchpad verification *)

Lemma join_bytes b0 b1 :
  0 <= b0 <= 255 -> 0 <= b1 <= 255 ->
  u16 (Z.lor (u16 b0) (Z.shiftl (u16 b1) 8)) = b0 + 256 * b1.
Proof.
  intros H0 H1.
  set (P := fun x y => u16 (Z.lor (u16 x) (Z.shiftl (u16 y) 8)) =? x + 256 * y).
  assert (E : forallb (P b0) (map Z.of_nat (seq 0 256)) = true).
  { apply (forallb_range
             (fun x => forallb (P x) (map Z.of_nat (seq 0 256))) 256);
      [vm_compute; reflexivity|lia]. }
  apply Z.eqb_eq.
  apply (forallb_range (P b0) 256 E). lia.
Qed.

Lemma end_offset_mod address length :
  u8 (u8 (Z.land address 0x1F) + (length - 1))
  = (Z.land address 0x1F + length - 1) mod 256.
Proof.
  unfold u8. rewrite Z.add_mod_idemp_l by lia. f_equal. lia.
Qed.

Lemma verify_value_spec address length o k :
  binary_line o ->
  verify_value address length o k = true
  <-> readback_address o k = address
      /\ readback_offset o k = (Z.land address 0x1F + length - 1) mod 256.
Proof.
  intros Ho. unfold verify_value, readback_address, readback_offset.
  pose proof (read_value_range o (k + 1) Ho) as R0.
  pose proof (read_value_range o (k + 9) Ho) as R1.
  pose proof (read_value_range o (k + 17) Ho) as R2.
  rewrite (join_bytes _ _ R0 R1), end_offset_mod.
  replace (u8 (read_value o (k + 17))) with (read_value o (k + 17))
    by (unfold u8; rewrite Z.mod_small; lia).
  rewrite andb_true_iff, !Z.eqb_eq. reflexivity.
Qed.

(** C4, as the code has it: on a line whose samples are 0 or 1,
    [verifyScratch] returns true exactly when the address read back, low
    byte first, is the requested address and the end-offset byte read back
    is (address & 0x1F) + length - 1 reduced modulo 256, the end offset
    being a [uint8_t]; the reduction changes nothing when that sum lies
    between 0 and 255, and for address 0x0200 and length 7 the expected end
    offset is 0x06. *)
Theorem verifyScratch_true_iff : forall pin address length o k,
  binary_line o ->
  (val (verifyScratch pin address length o k) = true
   <-> readback_address o k = address
       /\ readback_offset o k = (Z.land address 0x1F + length - 1) mod 256)
  /\ (0 <= Z.land address 0x1F + length - 1 <= 255 ->
      (Z.land address 0x1F + length - 1) mod 256
      = Z.land address 0x1F + length - 1)
  /\ (Z.land 0x0200 0x1F + 7 - 1) mod 256 = 0x06.
Proof.
  intros pin address length o k Ho.
  rewrite verifyScratch_run. cbn [val fst].
  split; [apply verify_value_spec, Ho|].
  split; [intros H; apply Z.mod_small; lia|reflexivity].
Qed.

Lemma verifyScratch_true_iff_witness :
  val (verifyScratch 23 RTCSECONDS 7 rtc_line 0%nat) = true
  /\ readback_address rtc_line 0%nat = 0x0200
  /\ readback_offset rtc_line 0%nat = 0x06.
Proof.
  assert (Hb : binary_line rtc_line) by (apply binary_replay; reflexivity).
  destruct (verifyScratch_true_iff 23 RTCSECONDS 7 rtc_line 0%nat Hb)
    as (Hiff & _ & _).
  split; [apply Hiff|]; vm_compute; repeat split; reflexivity.
Defined.

(** C4 fails as stated: for address 0x021F and length 226 the sum
    (address & 0x1F) + length - 1 is 256, which no byte equals, and yet
    [verifyScratch] returns true when the device reads back the address and
    the end offset 0x00. *)
Lemma verifyScratch_offset_wraps :
  binary_line wrap_line
  /\ ~ (val (verifyScratch 23 0x021F 226 wrap_line 0%nat) = true
        <-> readback_address wrap_line 0%nat = 0x021F
            /\ readback_offset wrap_line 0%nat
               = Z.land 0x021F 0x1F + 226 - 1).
Proof.
  split; [apply binary_replay; reflexivity|].
  intros [H _].
  assert (E : val (verifyScratch 23 0x021F 226 wrap_line 0%nat) = true)
    by (vm_compute; reflexivity).
  destruct (H E) as [_ Hoff]. vm_compute in Hoff. discriminate Hoff.
Qed.

(** ** The page boundary *)

Lemma transactions_markers t : transactions t = transactions (markers t).
Proof.
  unfold markers.
  induction t as [|e t IH]; [reflexivity|].
  destruct e; cbn [transactions filter is_marker]; congruence.
Qed.

Lemma land_255 a : Z.land a 0xFF = a mod 256.
Proof. change 0xFF with (Z.ones 8). apply Z.land_ones. lia. Qed.

Lemma verifyScratch_sent_bytes pin address length o k :
  sent_bytes (tr (verifyScratch pin address length o k))
  = [SKIPROM; READSCRATCH].
Proof.
  rewrite verifyScratch_run. cbn [tr snd]. unfold sent_bytes.
  rewrite peer_bits_verify_trace, peer_bits_skip by reflexivity.
  change (peer_bits []) with (@nil Z).
  now rewrite !peer_bytes_lsb_first.
Qed.

Lemma commitScratch_sent_bytes pin address length o k :
  sent_bytes (tr (commitScratch pin address length o k))
  = [SKIPROM; COPYSCRATCH; address mod 256; (address / 256) mod 256;
     (Z.land address 0x1F + length - 1) mod 256].
Proof.
  rewrite commitScratch_run. cbn [tr snd]. unfold sent_bytes.
  rewrite peer_bits_skip by reflexivity.
  rewrite <- (app_nil_r (commit_trace _ _ _ _ _)), peer_bits_commit_trace.
  change (peer_bits []) with (@nil Z).
  rewrite !peer_bytes_lsb_first. cbn [peer_bytes].
  rewrite !land_255, u8_u8, end_offset_mod, Z.shiftr_div_pow2 by lia.
  unfold u8. rewrite !Z.mod_mod by lia. reflexivity.
Qed.

(** C3, as the code has it: neither [verifyScratch] nor [commitScratch]
    checks the page boundary, both send their command bytes for every
    address and length; the transactions that [setRTC], [clearMem] and
    [missionStart] request all stay within the page. *)
Theorem transactions_stay_within_page : forall pin timestruct delay creg o,
  (forall address length k,
      sent_bytes (tr (verifyScratch pin address length o k))
      = [SKIPROM; READSCRATCH]
      /\ sent_bytes (tr (commitScratch pin address length o k))
         = [SKIPROM; COPYSCRATCH; address mod 256; (address / 256) mod 256;
            (Z.land address 0x1F + length - 1) mod 256])
  /\ Forall (fun t =>
               Forall (fun al => ~ crosses_page (fst al) (snd al))
                      (transactions t))
       [ tr (setRTC pin timestruct o 0%nat);
         tr (clearMem pin o 0%nat);
         tr (missionStart pin delay creg o 0%nat) ].
Proof.
  intros pin timestruct delay creg o. split.
  - intros address length k. split.
    + apply verifyScratch_sent_bytes.
    + apply commitScratch_sent_bytes.
  - assert (Hin : forall a l, (a, l) = (RTCSECONDS, 7)
                              \/ (a, l) = (CONTROLREG, 1)
                              \/ (a, l) = (CONTROLREG, 6) ->
                              ~ crosses_page a l).
    { intros a l [E|[E|E]]; injection E as -> ->;
        unfold crosses_page; vm_compute; discriminate. }
    apply Forall_cons; [|apply Forall_cons; [|apply Forall_cons; [|apply Forall_nil]]].
    + rewrite transactions_markers, markers_setRTC.
      destruct (u8 (o 0%nat) =? HIGH); [constructor|].
      destruct (verify_value RTCSECONDS 7 o (0 + 1));
        repeat constructor; apply Hin; auto.
    + rewrite transactions_markers, markers_clearMem.
      destruct (verify_value CONTROLREG 1 o (0 + 1));
        repeat constructor; apply Hin; auto.
    + rewrite transactions_markers, markers_missionStart.
      destruct (verify_value CONTROLREG 6 o (0 + 1));
        repeat constructor; apply Hin; auto.
Qed.

(** C3 fails as stated: address 0x021F with length 2 crosses the page
    boundary, and [verifyScratch] and [commitScratch] still drive the line
    and send their bytes, the end offset being 0x20. *)
Lemma page_crossing_is_sent :
  crosses_page 0x021F 2
  /\ sent_bytes (tr (verifyScratch 23 0x021F 2 (replay []) 0%nat))
     = [SKIPROM; READSCRATCH]
  /\ line_writes (tr (verifyScratch 23 0x021F 2 (replay []) 0%nat)) = 57%nat
  /\ sent_bytes (tr (commitScratch 23 0x021F 2 (replay []) 0%nat))
     = [SKIPROM; COPYSCRATCH; 0x1F; 0x02; 0x20]
  /\ line_writes (tr (commitScratch 23 0x021F 2 (replay []) 0%nat)) = 81%nat.
Proof. vm_compute. repeat split; reflexivity. Qed.

(** * Further properties of the transceiver and of the operations *)

(** ** Bytes and addresses on the wire *)

Lemma line_reads_app t1 t2 :
  line_reads (t1 ++ t2) = (line_reads t1 + line_reads t2)%nat.
Proof. unfold line_reads. now rewrite filter_app, length_app. Qed.

Lemma line_reads_write_slots n : forall pin v,
  line_reads (write_slots n pin v) = 0%nat.
Proof.
  induction n as [|n IH]; intros pin v; [reflexivity|].
  cbn [write_slots]. rewrite line_reads_app, IH. reflexivity.
Qed.

Lemma line_reads_wire_byte pin v : line_reads (wire_byte pin v) = 0%nat.
Proof. apply line_reads_write_slots. Qed.

Lemma read_back_byte w :
  0 <= w < 256 -> read_value (replay (lsb_first 8 w)) 0 = w.
Proof.
  intros Hw. apply Z.eqb_eq.
  apply (forallb_range
           (fun w => read_value (replay (lsb_first 8 w)) 0 =? w) 256);
    [vm_compute; reflexivity|lia].
Qed.

Lemma u8_range v : 0 <= u8 v < 256.
Proof. apply Z.mod_pos_bound. lia. Qed.

(** X1: [writeByte] transmits the low eight bits of its [int] argument and
    nothing else: a peer receives the single byte v mod 256, the line is
    never sampled, and reading the written bits back gives v mod 256. *)
Theorem writeByte_low_eight_bits : forall pin pin' v o k,
  sent_bytes (tr (writeByte pin v o k)) = [v mod 256]
  /\ line_reads (tr (writeByte pin v o k)) = 0%nat
  /\ line_writes (tr (writeByte pin v o k)) = 16%nat
  /\ val (readByte pin' (replay (peer_bits (tr (writeByte pin v o k)))) 0%nat)
     = v mod 256.
Proof.
  intros pin pin' v o k. rewrite writeByte_run. cbn [tr snd].
  unfold sent_bytes. rewrite peer_bits_wire_byte.
  split; [|split; [|split]].
  - rewrite <- (app_nil_r (lsb_first 8 v)), peer_bytes_lsb_first. reflexivity.
  - apply line_reads_wire_byte.
  - unfold wire_byte, line_writes. cbn [write_slots].
    rewrite !filter_app, !length_app. reflexivity.
  - rewrite readByte_run. cbn [val fst].
    rewrite <- lsb_first_u8. apply read_back_byte, u8_range.
Qed.

(** X2: [writeAddr] sends a 16-bit address as two bytes, low byte first,
    and the two bytes determine the address. *)
Theorem writeAddr_little_endian : forall pin address o k,
  0 <= address < 65536 ->
  sent_bytes (tr (writeAddr pin address o k))
  = [address mod 256; address / 256]
  /\ address mod 256 + 256 * (address / 256) = address
  /\ 0 <= address / 256 < 256.
Proof.
  intros pin address o k Ha. rewrite writeAddr_run. cbn [tr snd].
  unfold sent_bytes.
  rewrite <- (app_nil_r (wire_addr pin address)), peer_bits_wire_addr_app.
  change (peer_bits []) with (@nil Z).
  rewrite !peer_bytes_lsb_first. change (peer_bytes []) with (@nil Z).
  rewrite !land_255, Z.shiftr_div_pow2 by lia.
  unfold u8. rewrite !Z.mod_mod by lia. change (2 ^ 8) with 256.
  assert (Hhi : 0 <= address / 256 < 256)
    by (split; [apply Z.div_pos; lia|apply Z.div_lt_upper_bound; lia]).
  rewrite (Z.mod_small (address / 256)) by exact Hhi.
  split; [reflexivity|]. split; [|exact Hhi].
  pose proof (Z.div_mod address 256 ltac:(lia)). lia.
Qed.

Lemma writeAddr_little_endian_witness :
  sent_bytes (tr (writeAddr 23 TEMPADDR (replay []) 0%nat)) = [0x11; 0x02].
Proof.
  apply (writeAddr_little_endian 23 TEMPADDR (replay []) 0%nat).
  unfold TEMPADDR. lia.
Defined.

(** ** Time spent on the line *)

Lemma duration_app t1 t2 : duration (t1 ++ t2) = duration t1 + duration t2.
Proof.
  induction t1 as [|e t1 IH]; [reflexivity|].
  destruct e; cbn [app duration]; rewrite ?IH; lia.
Qed.

Lemma bits_sum_range n : forall v,
  0 <= fold_right Z.add 0 (lsb_first n v) <= Z.of_nat n.
Proof.
  induction n as [|n IH]; intros v; [cbn; lia|].
  rewrite lsb_first_S. cbn [fold_right].
  specialize (IH (Z.shiftr v 1)).
  destruct (Z.testbit v 0); cbn [Z.b2z]; lia.
Qed.

Lemma duration_write_slots n : forall pin v,
  duration (write_slots n pin v)
  = 70 * Z.of_nat n - 5 * fold_right Z.add 0 (lsb_first n v).
Proof.
  induction n as [|n IH]; intros pin v; [reflexivity|].
  cbn [write_slots]. rewrite duration_app, IH, lsb_first_S, land_1_bit.
  cbn [fold_right].
  destruct (Z.testbit v 0); cbn [Z.b2z];
    change (duration (write_slot pin 1)) with 65;
    change (duration (write_slot pin 0)) with 70; lia.
Qed.

Lemma duration_read_slots n : forall pin o k,
  duration (read_slots n pin o k) = 68 * Z.of_nat n.
Proof.
  induction n as [|n IH]; intros pin o k; [reflexivity|].
  cbn [read_slots]. rewrite duration_app, IH.
  change (duration (read_slot pin (u8 (o k)))) with 68. lia.
Qed.

Lemma duration_wire_byte pin v : duration (wire_byte pin v) = 560 - 5 * ones8 v.
Proof. unfold wire_byte, ones8. rewrite duration_write_slots. lia. Qed.

(** X3: whatever the line does, [reset] busy-waits 960 us and [readByte]
    544 us; [writeByte] busy-waits 70 us for each 0 bit and 65 us for each
    1 bit among the low eight, hence between 520 and 560 us. *)
Theorem transfer_durations : forall pin v o k,
  duration (tr (reset pin o k)) = 960
  /\ duration (tr (readByte pin o k)) = 544
  /\ duration (tr (writeByte pin v o k)) = 560 - 5 * ones8 v
  /\ 520 <= duration (tr (writeByte pin v o k)) <= 560.
Proof.
  intros pin v o k.
  rewrite reset_run, readByte_run, writeByte_run. cbn [tr snd].
  rewrite duration_read_slots, duration_wire_byte.
  pose proof (bits_sum_range 8 v) as Hb. fold (ones8 v) in Hb.
  repeat split; try reflexivity; lia.
Qed.

(** X4: a conversion busy-waits 960 us when the device is absent, 3210 us
    when it disappears before the second reset and 5939 us when it
    succeeds, whatever byte is read. *)
Theorem oneShotConvert_duration : forall pin o,
  duration (tr (oneShotConvert pin o 0%nat))
  = (if u8 (o 0%nat) =? HIGH then 960
     else if u8 (o 1%nat) =? HIGH then 3210 else 5939).
Proof.
  intros pin o.
  destruct (Z.eqb_spec (u8 (o 0%nat)) HIGH) as [H0|H0].
  { now rewrite (oneShotConvert_absent pin o 0 H0). }
  destruct (Z.eqb_spec (u8 (o 1%nat)) HIGH) as [H1|H1].
  { rewrite (oneShotConvert_lost pin o 0 H0 H1). cbn [tr snd].
    rewrite !duration_app, !duration_wire_byte. reflexivity. }
  rewrite (oneShotConvert_present pin o 0 H0 H1). cbn [tr snd].
  unfold wire_addr.
  rewrite !duration_app, !duration_wire_byte, duration_read_slots.
  reflexivity.
Qed.

(** ** The line is released *)

Lemma last_fsel_app t1 t2 :
  last_fsel (t1 ++ t2)
  = match last_fsel t2 with
    | Some m => Some m
    | None => last_fsel t1
    end.
Proof.
  induction t1 as [|e t1 IH]; [cbn; now destruct (last_fsel t2)|].
  destruct e; cbn [app last_fsel]; rewrite ?IH; try reflexivity.
  destruct (last_fsel t2), (last_fsel t1); reflexivity.
Qed.

Lemma released_app_r t1 t2 : released t2 -> released (t1 ++ t2).
Proof. unfold released. intros H. now rewrite last_fsel_app, H. Qed.

Lemma released_app_l t1 t2 :
  last_fsel t2 = None -> released t1 -> released (t1 ++ t2).
Proof. unfold released. intros H2 H1. now rewrite last_fsel_app, H2. Qed.

Lemma released_cons e t : released t -> released (e :: t).
Proof. apply (released_app_r [e]). Qed.

Lemma released_write_slots n : forall pin v, released (write_slots (S n) pin v).
Proof.
  induction n as [|n IH]; intros pin v.
  - cbn [write_slots]. rewrite app_nil_r. reflexivity.
  - change (write_slots (S (S n)) pin v)
      with (write_slot pin (if negb (Z.land v 1 =? 0) then 1 else 0)
              ++ write_slots (S n) pin (Z.shiftr v 1)).
    apply released_app_r, IH.
Qed.

Lemma released_wire_byte pin v : released (wire_byte pin v).
Proof. apply released_write_slots. Qed.

Lemma released_read_slots n : forall pin o k, released (read_slots (S n) pin o k).
Proof.
  induction n as [|n IH]; intros pin o k.
  - cbn [read_slots]. rewrite app_nil_r. reflexivity.
  - change (read_slots (S (S n)) pin o k)
      with (read_slot pin (u8 (o k)) ++ read_slots (S n) pin o (S k)).
    apply released_app_r, IH.
Qed.

Lemma released_reset_trace pin b : released (reset_trace pin b).
Proof. reflexivity. Qed.

Lemma released_verify_trace pin o k : released (verify_trace pin o k).
Proof.
  unfold verify_trace. do 5 apply released_app_r. apply released_read_slots.
Qed.

Lemma released_commit_trace pin a l o k : released (commit_trace pin a l o k).
Proof.
  unfold commit_trace. do 4 apply released_app_r.
  apply released_app_l; [reflexivity|apply released_wire_byte].
Qed.

Lemma released_verify_commit pin a l o k other :
  last_fsel other = None ->
  released (verify_commit_trace pin a l o k other).
Proof.
  intros Hother. unfold verify_commit_trace.
  destruct (verify_value a l o k).
  - do 2 apply released_app_r. apply released_cons, released_commit_trace.
  - apply released_app_l; [|apply released_verify_trace].
    rewrite last_fsel_app, Hother. reflexivity.
Qed.

(** X5: every function leaves the pin switched to input: from the bit
    primitives up to the operations, on every line and on every path,
    the last direction set is [BCM2835_GPIO_FSEL_INPT]. *)
Theorem line_released_after_every_call :
  forall pin b v address length timestruct delay creg o k,
  Forall released
    [ tr (writeBit pin b o k);
      tr (readBit pin o k);
      tr (reset pin o k);
      tr (writeByte pin v o k);
      tr (readByte pin o k);
      tr (writeAddr pin address o k);
      tr (verifyScratch pin address length o k);
      tr (commitScratch pin address length o k);
      tr (oneShotConvert pin o k);
      tr (setRTC pin timestruct o k);
      tr (clearMem pin o k);
      tr (missionStart pin delay creg o k) ].
Proof.
  intros pin b v address length timestruct delay creg o k.
  repeat (apply Forall_cons; [|]); [..|apply Forall_nil].
  - reflexivity.
  - reflexivity.
  - reflexivity.
  - rewrite writeByte_run. apply released_wire_byte.
  - rewrite readByte_run. apply released_read_slots.
  - rewrite writeAddr_run. apply released_app_r, released_wire_byte.
  - rewrite verifyScratch_run. cbn [tr snd].
    apply released_app_l; [reflexivity|apply released_verify_trace].
  - rewrite commitScratch_run. cbn [tr snd].
    apply released_cons, released_commit_trace.
  - destruct (Z.eq_dec (u8 (o k)) HIGH) as [H0|H0].
    { now rewrite (oneShotConvert_absent pin o k H0). }
    destruct (Z.eq_dec (u8 (o (k + 1)%nat)) HIGH) as [H1|H1].
    { rewrite (oneShotConvert_lost pin o k H0 H1). cbn [tr snd].
      do 4 apply released_app_r. reflexivity. }
    rewrite (oneShotConvert_present pin o k H0 H1). cbn [tr snd].
    do 8 apply released_app_r. apply released_read_slots.
  - rewrite setRTC_tr. unfold setRTC_trace.
    destruct (u8 (o k) =? HIGH).
    + apply released_app_l; reflexivity.
    + do 6 apply released_app_r.
      apply released_verify_commit. reflexivity.
  - rewrite clearMem_tr. unfold clearMem_trace.
    do 9 apply released_app_r. reflexivity.
  - rewrite missionStart_tr. unfold missionStart_trace.
    do 7 apply released_app_r. reflexivity.
Qed.

(** ** Reading on an arbitrary line *)

Lemma lor_lt_pow2 a b n :
  0 <= n -> 0 <= a < 2 ^ n -> 0 <= b < 2 ^ n -> 0 <= Z.lor a b < 2 ^ n.
Proof.
  intros Hn Ha Hb. split; [apply Z.lor_nonneg; lia|].
  destruct (Z.eq_dec a 0) as [->|Ha0]; [now rewrite Z.lor_0_l|].
  destruct (Z.eq_dec b 0) as [->|Hb0]; [now rewrite Z.lor_0_r|].
  apply Z.log2_lt_pow2; [|rewrite Z.log2_lor by lia].
  - assert (0 <= Z.lor a b) by (apply Z.lor_nonneg; lia).
    assert (Z.lor a b <> 0) by (rewrite Z.lor_eq_0_iff; lia). lia.
  - apply Z.max_lub_lt; apply Z.log2_lt_pow2; lia.
Qed.

Lemma read_acc_bound n : forall i byte o k,
  0 <= i -> i + Z.of_nat n <= 8 -> 0 <= byte < 2 ^ 15 ->
  0 <= read_acc n i byte o k < 2 ^ 15.
Proof.
  induction n as [|n IH]; intros i byte o k Hi Hn Hb; [exact Hb|].
  cbn [read_acc]. apply IH; [lia|lia|].
  apply lor_lt_pow2; [lia|exact Hb|].
  pose proof (u8_range (o k)) as Hu.
  rewrite Z.shiftl_mul_pow2 by lia.
  assert (0 < 2 ^ i <= 2 ^ 7)
    by (split; [apply Z.pow_pos_nonneg; lia|apply Z.pow_le_mono_r; lia]).
  change (2 ^ 7) with 128 in *. change (2 ^ 15) with 32768. nia.
Qed.

(** X6: on any line, also one whose samples are not 0 or 1, [readByte]
    samples the line exactly eight times and returns a value from 0 to
    32767, so the accumulation in an [int] cannot overflow. *)
Theorem readByte_bounded_on_any_line : forall pin o k,
  0 <= val (readByte pin o k) < 32768
  /\ nxt (readByte pin o k) = (k + 8)%nat
  /\ line_reads (tr (readByte pin o k)) = 8%nat.
Proof.
  intros pin o k. rewrite readByte_run. cbn [val nxt tr fst snd].
  split; [|split; [reflexivity|]].
  - apply (read_acc_bound 8 0 0 o k); cbn; lia.
  - cbn [read_slots]. rewrite !line_reads_app. reflexivity.
Qed.

(** ** Presence failures *)

(** X7: when the device answers the first reset of [oneShotConvert] but
    not the second, the function returns the sentinel after sending only
    the conversion command; the temperature register is never selected or
    read, the line having been sampled twice, once per reset. *)
Theorem oneShotConvert_presence_lost : forall pin o,
  u8 (o 0%nat) <> HIGH -> u8 (o 1%nat) = HIGH ->
  val (oneShotConvert pin o 0%nat) = float_of_int (-100)
  /\ sent_bytes (tr (oneShotConvert pin o 0%nat)) = [SKIPROM; CONVERTTEMP]
  /\ line_reads (tr (oneShotConvert pin o 0%nat)) = 2%nat
  /\ nxt (oneShotConvert pin o 0%nat) = 2%nat.
Proof.
  intros pin o H0 H1.
  rewrite (oneShotConvert_lost pin o 0 H0 H1). cbn [val nxt tr fst snd].
  split; [reflexivity|]. split; [|split; [|reflexivity]].
  - unfold sent_bytes.
    rewrite peer_bits_reset_trace, !peer_bits_wire_byte_app.
    rewrite peer_bits_skip_app by reflexivity.
    rewrite <- (app_nil_r (reset_trace pin HIGH)), peer_bits_reset_trace.
    change (peer_bits []) with (@nil Z).
    now rewrite !peer_bytes_lsb_first.
  - rewrite !line_reads_app, !line_reads_wire_byte. reflexivity.
Qed.

Lemma oneShotConvert_presence_lost_witness :
  val (oneShotConvert 23 (replay [0; 1]) 0%nat) = float_of_int (-100)
  /\ sent_bytes (tr (oneShotConvert 23 (replay [0; 1]) 0%nat))
     = [SKIPROM; CONVERTTEMP].
Proof.
  destruct (oneShotConvert_presence_lost 23 (replay [0; 1])) as (Hv & Hs & _).
  - vm_compute. discriminate.
  - reflexivity.
  - split; [exact Hv|exact Hs].
Defined.

(** X8: on a line whose samples are 0 or 1, [oneShotConvert] returns the
    sentinel exactly when one of its two presence checks fails: the first
    reset samples the line high, or the first samples it low and the
    second high. *)
Theorem oneShotConvert_sentinel_iff : forall pin o,
  binary_line o ->
  val (oneShotConvert pin o 0%nat) = float_of_int (-100)
  <-> o 0%nat = HIGH \/ (o 0%nat = LOW /\ o 1%nat = HIGH).
Proof.
  intros pin o Ho.
  assert (Hu : forall j, u8 (o j) = o j).
  { intros j. destruct (Ho j) as [-> | ->]; reflexivity. }
  destruct (Ho 0%nat) as [E0|E0].
  - destruct (Ho 1%nat) as [E1|E1].
    + assert (H0 : u8 (o 0%nat) <> HIGH) by (rewrite Hu, E0; discriminate).
      assert (H1 : u8 (o 1%nat) <> HIGH) by (rewrite Hu, E1; discriminate).
      rewrite (oneShotConvert_present pin o 0 H0 H1). cbn [val fst].
      split.
      * intros E. exfalso.
        apply (temperature_not_sentinel (read_value o 2)); [|exact E].
        apply read_value_range, Ho.
      * rewrite E0, E1. intros [H|[_ H]]; discriminate H.
    + assert (H0 : u8 (o 0%nat) <> HIGH) by (rewrite Hu, E0; discriminate).
      assert (H1 : u8 (o 1%nat) = HIGH) by (rewrite Hu, E1; reflexivity).
      rewrite (oneShotConvert_lost pin o 0 H0 H1). cbn [val fst].
      split; [intros _; right; split; assumption|reflexivity].
  - assert (H0 : u8 (o 0%nat) = HIGH) by (rewrite Hu, E0; reflexivity).
    rewrite (oneShotConvert_absent pin o 0 H0). cbn [val fst].
    split; [intros _; left; exact E0|reflexivity].
Qed.

Lemma oneShotConvert_sentinel_iff_witness :
  val (oneShotConvert 23 (replay [0; 1]) 0%nat) = float_of_int (-100).
Proof.
  apply (oneShotConvert_sentinel_iff 23 (replay [0; 1])).
  - apply binary_replay. reflexivity.
  - right. split; reflexivity.
Defined.

(** X9: when the reset finds no presence pulse, [oneShotConvert] and
    [setRTC] do nothing after the reset pulse: the conversion returns the
    sentinel, the clock prints its error message, and neither sends a
    byte, reads the clock of the host or calls the verification. *)
Theorem no_device_stops_conversion_and_clock : forall pin timestruct o k,
  u8 (o k) = HIGH ->
  val (oneShotConvert pin o k) = float_of_int (-100)
  /\ tr (oneShotConvert pin o k)
     = [ Fsel pin BCM2835_GPIO_FSEL_OUTP; GpioWrite pin LOW; DelayUs 480;
         Fsel pin BCM2835_GPIO_FSEL_INPT; DelayUs 70; GpioLev pin HIGH;
         DelayUs 410 ]
  /\ tr (setRTC pin timestruct o k)
     = [ Fsel pin BCM2835_GPIO_FSEL_OUTP; GpioWrite pin LOW; DelayUs 480;
         Fsel pin BCM2835_GPIO_FSEL_INPT; DelayUs 70; GpioLev pin HIGH;
         DelayUs 410; Printf "Error setting RTC." ].
Proof.
  intros pin timestruct o k H.
  rewrite (oneShotConvert_absent pin o k H), setRTC_tr.
  unfold setRTC_trace. rewrite H. repeat split; reflexivity.
Qed.

Lemma no_device_stops_conversion_and_clock_witness :
  val (oneShotConvert 23 absent_line 0%nat) = float_of_int (-100)
  /\ line_writes (tr (setRTC 23 sample_time absent_line 0%nat)) = 1%nat.
Proof.
  destruct (no_device_stops_conversion_and_clock
              23 sample_time absent_line 0%nat eq_refl) as (Hv & _ & Ht).
  split; [exact Hv|]. rewrite Ht. reflexivity.
Defined.

(** ** The bytes of clear-memory and mission-start *)

Lemma peer_bits_reset_only pin b : peer_bits (reset_trace pin b) = [].
Proof. reflexivity. Qed.

Lemma peer_bits_verify_commit_app pin a l o k t :
  peer_bits (verify_commit_trace pin a l o k [] ++ t)
  = lsb_first 8 SKIPROM ++ lsb_first 8 READSCRATCH
      ++ (if verify_value a l o k
          then lsb_first 8 SKIPROM ++ lsb_first 8 COPYSCRATCH
                 ++ lsb_first 8 (Z.land a 0xFF)
                 ++ lsb_first 8 (Z.land (Z.shiftr a 8) 0xFF)
                 ++ lsb_first 8 (u8 (u8 (Z.land a 0x1F) + (l - 1)))
          else [])
      ++ peer_bits t.
Proof.
  unfold verify_commit_trace.
  rewrite <- !app_assoc, peer_bits_verify_trace.
  rewrite peer_bits_skip_app by reflexivity.
  destruct (verify_value a l o k).
  - rewrite <- app_comm_cons, peer_bits_skip by reflexivity.
    rewrite peer_bits_commit_trace, <- !app_assoc. reflexivity.
  - reflexivity.
Qed.

(** X10: [clearMem] writes the clear-enable flag 0x40 to the scratchpad
    at 0x020E, and sends the clear-memory command 0x3C at the end on every
    path: also when [verifyScratch] returned false and the flag was not
    committed.  When it is committed, the end offset sent is 0x0E. *)
Theorem clearMem_bytes : forall pin o,
  sent_bytes (tr (clearMem pin o 0%nat))
  = [SKIPROM; WRITESCRATCH; 0x0E; 0x02; ENABLECLR; SKIPROM; READSCRATCH]
      ++ (if val (verifyScratch pin CONTROLREG 1 o 1%nat)
          then [SKIPROM; COPYSCRATCH; 0x0E; 0x02; 0x0E] else [])
      ++ [SKIPROM; CLEARMEM].
Proof.
  intros pin o. rewrite clearMem_tr, verifyScratch_run. cbn [val fst].
  unfold clearMem_trace, sent_bytes. cbv zeta.
  change (0 + 1)%nat with 1%nat.
  rewrite peer_bits_reset_trace, !peer_bits_wire_byte_app,
    peer_bits_wire_addr_app, peer_bits_wire_byte_app,
    peer_bits_verify_commit_app, peer_bits_reset_trace,
    !peer_bits_wire_byte_app, peer_bits_reset_only.
  destruct (verify_value CONTROLREG 1 o 1); rewrite <- ?app_assoc;
    rewrite !peer_bytes_lsb_first; reflexivity.
Qed.

Lemma u8_low_byte a : u8 (Z.land a 0xFF) = a mod 256.
Proof. rewrite land_255. unfold u8. apply Z.mod_mod. lia. Qed.

Lemma u8_high_byte a : u8 (Z.land (Z.shiftr a 8) 0xFF) = (a / 256) mod 256.
Proof.
  rewrite land_255, Z.shiftr_div_pow2 by lia. unfold u8.
  change (2 ^ 8) with 256. apply Z.mod_mod. lia.
Qed.

(** X11: [missionStart] writes six payload bytes at 0x020E: the control
    byte, three zero bytes and the start delay, low byte first; these are
    as many as the length 6 it verifies and commits with, and the end
    offset sent on commit is 0x13. *)
Theorem missionStart_bytes : forall pin delay creg o,
  sent_bytes (tr (missionStart pin delay creg o 0%nat))
  = [SKIPROM; WRITESCRATCH; 0x0E; 0x02]
      ++ [creg mod 256; 0x00; 0x00; 0x00;
          delay mod 256; (delay / 256) mod 256]
      ++ [SKIPROM; READSCRATCH]
      ++ (if val (verifyScratch pin CONTROLREG 6 o 1%nat)
          then [SKIPROM; COPYSCRATCH; 0x0E; 0x02; 0x13] else []).
Proof.
  intros pin delay creg o. rewrite missionStart_tr, verifyScratch_run.
  cbn [val fst].
  unfold missionStart_trace, sent_bytes. cbv zeta.
  change (0 + 1)%nat with 1%nat.
  rewrite peer_bits_reset_trace, !peer_bits_wire_byte_app,
    peer_bits_wire_addr_app, peer_bits_wire_bytes_app,
    peer_bits_wire_addr_app,
    peer_bits_verify_commit_app, peer_bits_reset_only.
  rewrite !peer_bytes_lsb_first, peer_bytes_payload.
  cbn [map app]. rewrite !peer_bytes_lsb_first.
  rewrite (u8_low_byte delay), (u8_high_byte delay).
  destruct (verify_value CONTROLREG 6 o 1); rewrite <- ?app_assoc;
    rewrite ?peer_bytes_lsb_first; reflexivity.
Qed.

(** ** The rest of the clock payload *)

Lemma bcd_two_digits y : 0 <= y <= 99 -> bcd y = 16 * (y / 10) + y mod 10.
Proof.
  intros Hy. apply Z.eqb_eq.
  apply (forallb_range (fun y => bcd y =? 16 * (y / 10) + y mod 10) 100);
    [vm_compute; reflexivity|lia].
Qed.

Lemma bcd_month_digits m :
  0 <= m <= 11 -> bcd_month m = 128 + 16 * ((m + 1) / 10) + (m + 1) mod 10.
Proof.
  intros Hm. apply Z.eqb_eq.
  apply (forallb_range
           (fun m => bcd_month m =? 128 + 16 * ((m + 1) / 10) + (m + 1) mod 10)
           12); [vm_compute; reflexivity|lia].
Qed.

(** X12: with a device present and a calendar time in range, the fourth
    payload byte of [setRTC] is the weekday as a number from 1 to 7, the
    fifth is the month 1..12 in BCD with bit 7 set, and the sixth and last
    is the year within the century in BCD. *)
Theorem setRTC_calendar_bytes : forall pin timestruct o,
  u8 (o 0%nat) <> HIGH ->
  0 <= tm_wday timestruct <= 6 ->
  0 <= tm_mon timestruct <= 11 ->
  100 <= tm_year timestruct <= 199 ->
  nth 7 (sent_bytes (tr (setRTC pin timestruct o 0%nat))) 0
  = tm_wday timestruct + 1
  /\ nth 8 (sent_bytes (tr (setRTC pin timestruct o 0%nat))) 0
     = 128 + 16 * ((tm_mon timestruct + 1) / 10)
       + (tm_mon timestruct + 1) mod 10
  /\ nth 9 (sent_bytes (tr (setRTC pin timestruct o 0%nat))) 0
     = 16 * ((tm_year timestruct - 100) / 10)
       + (tm_year timestruct - 100) mod 10
  /\ nth 10 (sent_bytes (tr (setRTC pin timestruct o 0%nat))) 0 = SKIPROM.
Proof.
  intros pin timestruct o H Hw Hm Hy.
  rewrite (setRTC_sent_bytes pin timestruct o 0 H).
  unfold rtc_payload. cbn [app nth].
  rewrite (bcd_month_digits _ Hm), bcd_two_digits by lia.
  unfold u8. rewrite Z.mod_small by lia.
  repeat split; reflexivity.
Qed.

Lemma setRTC_calendar_bytes_witness :
  nth 7 (sent_bytes (tr (setRTC 23 sample_time (replay []) 0%nat))) 0 = 3
  /\ nth 8 (sent_bytes (tr (setRTC 23 sample_time (replay []) 0%nat))) 0
     = 0x86
  /\ nth 9 (sent_bytes (tr (setRTC 23 sample_time (replay []) 0%nat))) 0
     = 0x21.
Proof.
  destruct (setRTC_calendar_bytes 23 sample_time (replay []))
    as (Hw & Hm & Hy & _).
  - vm_compute. discriminate.
  - cbn. lia.
  - cbn. lia.
  - cbn. lia.
  - repeat split; assumption.
Defined.

Lemma bcd_hour_fields_bool h :
  0 <= h <= 23 ->
  (Z.land (bcd_hour h) 0x0F =? h mod 10)
  && Z.testbit (bcd_hour h) 6
  && negb (Z.testbit (bcd_hour h) 7)
  && Bool.eqb (Z.land (Z.shiftr (bcd_hour h) 4) 3 =? h / 10)
              (negb (h =? 10) && (h <? 20))
  && (Z.land (Z.shiftr (bcd_hour h) 4) 3
      =? (if h <=? 10 then 0 else if h <=? 20 then 1 else 3))
  && (bcd_hour h
      =? 0x40 + 16 * (if h <=? 10 then 0 else if h <=? 20 then 1 else 3)
         + h mod 10) = true.
Proof.
  intros Hh.
  apply (forallb_range
           (fun h => (Z.land (bcd_hour h) 0x0F =? h mod 10)
                     && Z.testbit (bcd_hour h) 6
                     && negb (Z.testbit (bcd_hour h) 7)
                     && Bool.eqb (Z.land (Z.shiftr (bcd_hour h) 4) 3 =? h / 10)
                                 (negb (h =? 10) && (h <? 20))
                     && (Z.land (Z.shiftr (bcd_hour h) 4) 3
                         =? (if h <=? 10 then 0
                             else if h <=? 20 then 1 else 3))
                     && (bcd_hour h
                         =? 0x40
                            + 16 * (if h <=? 10 then 0
                                    else if h <=? 20 then 1 else 3)
                            + h mod 10)) 24);
    [vm_compute; reflexivity|lia].
Qed.

(** X13: the third payload byte of [setRTC], for an hour from 0 to 23,
    has the units of the hour in its low nibble, bit 6 set and bit 7
    clear; its two-bit tens field (bits 4 and 5) is 0 for the hours up to
    10, 1 for 11 to 20 and 3 for 21 to 23, so that it equals the tens of
    the hour exactly for the hours other than 10 that are below 20; the
    whole byte is 0x40 + 16 * field + units. *)
Theorem setRTC_hour_byte : forall pin timestruct o,
  u8 (o 0%nat) <> HIGH ->
  0 <= tm_hour timestruct <= 23 ->
  let b := nth 6 (sent_bytes (tr (setRTC pin timestruct o 0%nat))) 0 in
  Z.land b 0x0F = tm_hour timestruct mod 10
  /\ Z.testbit b 6 = true
  /\ Z.testbit b 7 = false
  /\ (Z.land (Z.shiftr b 4) 3 =? tm_hour timestruct / 10)
     = negb (tm_hour timestruct =? 10) && (tm_hour timestruct <? 20)
  /\ Z.land (Z.shiftr b 4) 3
     = (if tm_hour timestruct <=? 10 then 0
        else if tm_hour timestruct <=? 20 then 1 else 3)
  /\ b = 0x40
         + 16 * (if tm_hour timestruct <=? 10 then 0
                 else if tm_hour timestruct <=? 20 then 1 else 3)
         + tm_hour timestruct mod 10.
Proof.
  intros pin timestruct o H Hh.
  rewrite (setRTC_sent_bytes pin timestruct o 0 H).
  unfold rtc_payload. cbn [app nth]. cbv zeta.
  pose proof (bcd_hour_fields_bool _ Hh) as E.
  apply andb_true_iff in E. destruct E as [E E6].
  apply andb_true_iff in E. destruct E as [E E5].
  apply andb_true_iff in E. destruct E as [E E4].
  apply andb_true_iff in E. destruct E as [E E3].
  apply andb_true_iff in E. destruct E as [E1 E2].
  split; [now apply Z.eqb_eq|].
  split; [exact E2|].
  split; [now apply negb_true_iff|].
  split; [now apply Bool.eqb_prop|].
  split; now apply Z.eqb_eq.
Qed.

Lemma setRTC_hour_byte_witness :
  Z.land (nth 6 (sent_bytes (tr (setRTC 23 sample_time (replay []) 0%nat))) 0)
         0x0F = 2.
Proof.
  apply (setRTC_hour_byte 23 sample_time (replay [])).
  - vm_compute. discriminate.
  - cbn. lia.
Defined.

(** X14: for a time that is not negative, [BCDSeconds] returns the
    seconds within the minute, from 0 to 59, as a plain binary number; it
    agrees with the packed encoding used by [setRTC] only below 10. *)
Theorem BCDSeconds_is_binary : forall time,
  0 <= time ->
  BCDSeconds time = time mod 60
  /\ 0 <= BCDSeconds time <= 59
  /\ (BCDSeconds time =? bcd (time mod 60)) = (time mod 60 <? 10).
Proof.
  intros time Ht.
  pose proof (Z.mod_pos_bound time 60 ltac:(lia)) as Hm.
  assert (E : BCDSeconds time = time mod 60).
  { unfold BCDSeconds, u8. rewrite Z.rem_mod_nonneg by lia.
    apply Z.mod_small. lia. }
  rewrite E. split; [reflexivity|]. split; [lia|].
  apply Bool.eqb_prop.
  apply (forallb_range
           (fun s => Bool.eqb (s =? bcd s) (s <? 10)) 60);
    [vm_compute; reflexivity|lia].
Qed.

Lemma BCDSeconds_is_binary_witness : BCDSeconds 1623761985 = 45.
Proof. apply (BCDSeconds_is_binary 1623761985). lia. Defined.
(** ** Verification against what the device reads back *)

(** X15: on a line stuck at one level, low or high, none of [setRTC],
    [clearMem] and [missionStart] ever calls [commitScratch]: the address
    read back is 0x0000 or 0xFFFF and matches neither 0x0200 nor 0x020E. *)
Theorem stuck_line_never_commits : forall c pin timestruct delay creg,
  c = LOW \/ c = HIGH ->
  commits (tr (setRTC pin timestruct (stuck_line c) 0%nat)) = 0%nat
  /\ commits (tr (clearMem pin (stuck_line c) 0%nat)) = 0%nat
  /\ commits (tr (missionStart pin delay creg (stuck_line c) 0%nat)) = 0%nat.
Proof.
  intros c pin timestruct delay creg Hc.
  rewrite (commits_markers (tr (setRTC _ _ _ _))), markers_setRTC.
  rewrite (commits_markers (tr (clearMem _ _ _))), markers_clearMem.
  rewrite (commits_markers (tr (missionStart _ _ _ _ _))),
    markers_missionStart.
  assert (E : forall a l, In (a, l) [(RTCSECONDS, 7); (CONTROLREG, 1);
                                      (CONTROLREG, 6)] ->
                          verify_value a l (stuck_line c) (0 + 1) = false).
  { intros a l Hin.
    destruct Hin as [E|[E|[E|[]]]]; injection E as <- <-;
      destruct Hc as [-> | ->]; vm_compute; reflexivity. }
  rewrite !E by (cbn; auto).
  destruct (u8 (stuck_line c 0%nat) =? HIGH); repeat split; reflexivity.
Qed.

Lemma stuck_line_never_commits_witness :
  commits (tr (clearMem 23 (stuck_line LOW) 0%nat)) = 0%nat.
Proof.
  destruct (stuck_line_never_commits LOW 23 sample_time 0 0) as (_ & H & _);
    [left; reflexivity|exact H].
Defined.

Lemma nth_replay_app pre l (i : nat) :
  replay (pre ++ l) (List.length pre + i)%nat = replay l i.
Proof. unfold replay. apply app_nth2_plus. Qed.

Lemma read_value_replay pre v post :
  read_value (replay (pre ++ lsb_first 8 v ++ post)) (List.length pre) = u8 v.
Proof.
  rewrite <- lsb_first_u8.
  pose proof (u8_range v) as Hw. generalize dependent (u8 v). intros w Hw.
  unfold read_value. cbn [read_acc].
  rewrite <- (Nat.add_0_r (List.length pre)) at 1.
  replace (S (List.length pre)) with (List.length pre + 1)%nat by lia.
  replace (S (List.length pre + 1)) with (List.length pre + 2)%nat by lia.
  replace (S (List.length pre + 2)) with (List.length pre + 3)%nat by lia.
  replace (S (List.length pre + 3)) with (List.length pre + 4)%nat by lia.
  replace (S (List.length pre + 4)) with (List.length pre + 5)%nat by lia.
  replace (S (List.length pre + 5)) with (List.length pre + 6)%nat by lia.
  replace (S (List.length pre + 6)) with (List.length pre + 7)%nat by lia.
  rewrite !nth_replay_app.
  change (replay (lsb_first 8 w ++ post) 0%nat) with (Z.b2z (Z.testbit w 0)).
  change (replay (lsb_first 8 w ++ post) 1%nat) with (Z.b2z (Z.testbit w 1)).
  change (replay (lsb_first 8 w ++ post) 2%nat) with (Z.b2z (Z.testbit w 2)).
  change (replay (lsb_first 8 w ++ post) 3%nat) with (Z.b2z (Z.testbit w 3)).
  change (replay (lsb_first 8 w ++ post) 4%nat) with (Z.b2z (Z.testbit w 4)).
  change (replay (lsb_first 8 w ++ post) 5%nat) with (Z.b2z (Z.testbit w 5)).
  change (replay (lsb_first 8 w ++ post) 6%nat) with (Z.b2z (Z.testbit w 6)).
  change (replay (lsb_first 8 w ++ post) 7%nat) with (Z.b2z (Z.testbit w 7)).
  revert w Hw. intros w Hw. apply Z.eqb_eq. revert w Hw.
  apply (forallb_range _ 256). vm_compute. reflexivity.
Qed.

Lemma binary_replay_Forall bits :
  Forall (fun b => b = 0 \/ b = 1) bits -> binary_line (replay bits).
Proof.
  intros H k. unfold replay.
  destruct (nth_in_or_default k bits 0) as [Hin| ->]; [|now left].
  rewrite Forall_forall in H. apply H, Hin.
Qed.

Lemma binary_lsb_first n v : Forall (fun b => b = 0 \/ b = 1) (lsb_first n v).
Proof.
  unfold lsb_first. apply Forall_map, Forall_forall. intros i _.
  destruct (Z.testbit v (Z.of_nat i)); [right|left]; reflexivity.
Qed.

Lemma read_value_at bits k v :
  firstn 8 (skipn k bits) = lsb_first 8 v ->
  read_value (replay bits) k = u8 v.
Proof.
  intros H.
  assert (Hk : (k <= List.length bits)%nat).
  { destruct (Nat.le_gt_cases k (List.length bits)) as [Hle|Hgt]; [exact Hle|].
    rewrite skipn_all2 in H by lia. discriminate H. }
  assert (E : bits = firstn k bits ++ lsb_first 8 v ++ skipn 8 (skipn k bits)).
  { rewrite <- H, firstn_skipn, firstn_skipn. reflexivity. }
  rewrite E at 1.
  rewrite <- (firstn_length_le bits Hk) at 3.
  apply read_value_replay.
Qed.

(** X16: [verifyScratch] decodes the address the way [writeAddr] encodes
    it.  Against a device that answers the reset and then plays back the
    bits [writeAddr] sends for a 16-bit address a', followed by an offset
    byte e, [verifyScratch] for address a returns true exactly when a' is
    a and e is the end offset it expects. *)
Theorem writeAddr_verifyScratch_roundtrip :
  forall pin pin' address address' length e o k,
  0 <= address' < 65536 ->
  val (verifyScratch pin' address length
         (replay (0 :: peer_bits (tr (writeAddr pin address' o k))
                    ++ lsb_first 8 e)) 0%nat) = true
  <-> address' = address
      /\ e mod 256 = (Z.land address 0x1F + length - 1) mod 256.
Proof.
  intros pin pin' address address' length e o k Ha.
  rewrite writeAddr_run. cbn [tr snd].
  rewrite <- (app_nil_r (wire_addr pin address')), peer_bits_wire_addr_app.
  change (peer_bits []) with (@nil Z). rewrite app_nil_r.
  set (lo := Z.land address' 0xFF).
  set (hi := Z.land (Z.shiftr address' 8) 0xFF).
  set (bits := 0 :: (lsb_first 8 lo ++ lsb_first 8 hi) ++ lsb_first 8 e).
  assert (Hb : binary_line (replay bits)).
  { apply binary_replay_Forall. unfold bits.
    apply Forall_cons; [now left|].
    repeat (apply Forall_app; split); apply binary_lsb_first. }
  rewrite verifyScratch_run. cbn [val fst].
  rewrite (verify_value_spec address length (replay bits) 0 Hb).
  unfold readback_address, readback_offset.
  rewrite (read_value_at bits (0 + 1) lo) by reflexivity.
  rewrite (read_value_at bits (0 + 9) hi) by reflexivity.
  rewrite (read_value_at bits (0 + 17) e) by reflexivity.
  unfold lo, hi. rewrite u8_low_byte, u8_high_byte.
  assert (Hhi : 0 <= address' / 256 < 256)
    by (split; [apply Z.div_pos; lia|apply Z.div_lt_upper_bound; lia]).
  rewrite (Z.mod_small (address' / 256)) by exact Hhi.
  pose proof (Z.div_mod address' 256 ltac:(lia)) as Hd.
  unfold u8. split; intros [H1 H2]; split; try exact H2; lia.
Qed.

Lemma writeAddr_verifyScratch_roundtrip_witness :
  val (verifyScratch 23 CONTROLREG 6
         (replay (0 :: peer_bits (tr (writeAddr 23 CONTROLREG (replay []) 0%nat))
                    ++ lsb_first 8 0x13)) 0%nat) = true.
Proof.
  apply (writeAddr_verifyScratch_roundtrip
           23 23 CONTROLREG CONTROLREG 6 0x13 (replay []) 0%nat).
  - unfold CONTROLREG. lia.
  - split; reflexivity.
Defined.

(** X17: when [verifyScratch] has returned true on a line whose samples
    are 0 or 1, the three bytes [commitScratch] sends after the
    copy-scratchpad command for the same address and length are the three
    bytes [verifyScratch] read back from the device, in the same order. *)
Theorem commitScratch_echoes_readback :
  forall pin address length o k k',
  binary_line o ->
  val (verifyScratch pin address length o k) = true ->
  sent_bytes (tr (commitScratch pin address length o k'))
  = [ SKIPROM; COPYSCRATCH;
      val (readByte pin o (k + 1)%nat);
      val (readByte pin o (k + 9)%nat);
      val (readByte pin o (k + 17)%nat) ].
Proof.
  intros pin address length o k k' Ho Hv.
  rewrite verifyScratch_run in Hv. cbn [val fst] in Hv.
  apply (verify_value_spec address length o k Ho) in Hv.
  destruct Hv as [Ha Hoff].
  unfold readback_address, readback_offset in Ha, Hoff.
  rewrite commitScratch_sent_bytes, !readByte_run. cbn [val fst].
  pose proof (read_value_range o (k + 1) Ho) as R0.
  pose proof (read_value_range o (k + 9) Ho) as R1.
  rewrite <- Hoff, <- Ha.
  replace ((read_value o (k + 1) + 256 * read_value o (k + 9)) mod 256)
    with (read_value o (k + 1))
    by (rewrite (Z.mul_comm 256), Z.mod_add, Z.mod_small; lia).
  replace ((read_value o (k + 1) + 256 * read_value o (k + 9)) / 256)
    with (read_value o (k + 9))
    by (rewrite (Z.mul_comm 256), Z.div_add, Z.div_small; lia).
  rewrite (Z.mod_small (read_value o (k + 9))) by lia.
  reflexivity.
Qed.

Lemma commitScratch_echoes_readback_witness :
  sent_bytes (tr (commitScratch 23 RTCSECONDS 7 rtc_line 25%nat))
  = [SKIPROM; COPYSCRATCH; 0x00; 0x02; 0x06].
Proof.
  rewrite (commitScratch_echoes_readback 23 RTCSECONDS 7 rtc_line 0%nat 25%nat).
  - vm_compute. reflexivity.
  - apply binary_replay. reflexivity.
  - vm_compute. reflexivity.
Defined.
